(** * PyInstaller bootloader: endianness normalisation and diagnostic emission

    A shallow embedding of two leaf files of the bootloader:

    - [pyi_endian.h]: the [pyi_be16toh] / [pyi_be32toh] / [pyi_be64toh]
      macros, selected by the preprocessor per platform, compiler and
      byte order;
    - [pyi_global.c]: the message-box, debug and stderr emitters, which
      render a format into fixed stack buffers.

    Integers are [Z] with the masks and shifts written out, characters are
    [Byte.byte], buffers are lists updated by index, and every sink the
    code writes to is an event of an explicit trace. *)

From Stdlib Require Import ZArith Lia List Bool String.
From Stdlib Require Import Init.Byte Strings.Byte.
From stdpp Require Import base tactics list.

Local Open Scope Z_scope.

(* ====================================================================== *)
(** ** Endianness layer ([pyi_endian.h])                                  *)
(* ====================================================================== *)

Module Endian.

(** Host byte orders the preprocessor can see in [BYTE_ORDER]. *)
Inductive byte_order := LittleEndian | BigEndian | PdpEndian.

(** Compilers told apart by the [_WIN32] branch. *)
Inductive compiler := MSVC | GNUC | Clang | OtherCompiler.

(** Platform families, in the order the [#if] / [#elif] chain tests them. *)
Inductive platform :=
| Linux | Cygwin
| Apple
| OpenBSD
| NetBSD | FreeBSD | DragonFly
| Win32 (cc : compiler)
| OtherPlatform.

Record target := Target { tgt_platform : platform; tgt_order : byte_order }.

(** Outcome of preprocessing: a binding for the macro, or an [#error]. *)
Inductive build (A : Type) :=
| Built (a : A)
| BuildError (msg : string).
Arguments Built {A} a.
Arguments BuildError {A} msg.

(** *** Byte-swap primitives of the platforms

    These are not code of the bootloader: they are the compiler
    intrinsics and libc macros the header binds to, written here with
    the usual mask-and-shift formulas. *)

Definition bswap16 (x : Z) : Z :=
  Z.lor (Z.shiftl (Z.land x 255) 8)
        (Z.land (Z.shiftr x 8) 255).

Definition bswap32 (x : Z) : Z :=
  Z.lor (Z.shiftl (Z.land x 255) 24)
 (Z.lor (Z.shiftl (Z.land (Z.shiftr x 8) 255) 16)
 (Z.lor (Z.shiftl (Z.land (Z.shiftr x 16) 255) 8)
        (Z.land (Z.shiftr x 24) 255))).

Definition bswap64 (x : Z) : Z :=
  Z.lor (Z.shiftl (Z.land x 255) 56)
 (Z.lor (Z.shiftl (Z.land (Z.shiftr x 8) 255) 48)
 (Z.lor (Z.shiftl (Z.land (Z.shiftr x 16) 255) 40)
 (Z.lor (Z.shiftl (Z.land (Z.shiftr x 24) 255) 32)
 (Z.lor (Z.shiftl (Z.land (Z.shiftr x 32) 255) 24)
 (Z.lor (Z.shiftl (Z.land (Z.shiftr x 40) 255) 16)
 (Z.lor (Z.shiftl (Z.land (Z.shiftr x 48) 255) 8)
        (Z.land (Z.shiftr x 56) 255))))))).

(** MSVC intrinsics and GCC/Clang builtins: unconditional swaps. *)
Definition _byteswap_ushort := bswap16.
Definition _byteswap_ulong := bswap32.
Definition _byteswap_uint64 := bswap64.
Definition __builtin_bswap16 := bswap16.
Definition __builtin_bswap32 := bswap32.
Definition __builtin_bswap64 := bswap64.

(** libc / kernel headers: swap on a little-endian host, identity
    otherwise ([<endian.h>], [<sys/endian.h>], [<libkern/OSByteOrder.h>]). *)
Definition big_to_host (swap : Z -> Z) (o : byte_order) (x : Z) : Z :=
  match o with
  | LittleEndian => swap x
  | _ => x
  end.

Definition be16toh := big_to_host bswap16.
Definition be32toh := big_to_host bswap32.
Definition be64toh := big_to_host bswap64.
Definition betoh16 := big_to_host bswap16.
Definition betoh32 := big_to_host bswap32.
Definition betoh64 := big_to_host bswap64.
Definition OSSwapBigToHostInt16 := big_to_host bswap16.
Definition OSSwapBigToHostInt32 := big_to_host bswap32.
Definition OSSwapBigToHostInt64 := big_to_host bswap64.

(** *** The macros of [pyi_endian.h] *)

Definition pyi_be16toh (t : target) : build (Z -> Z) :=
  match tgt_platform t with
  | Linux | Cygwin => Built (be16toh (tgt_order t))
  | Apple => Built (OSSwapBigToHostInt16 (tgt_order t))
  | OpenBSD => Built (be16toh (tgt_order t))
  | NetBSD | FreeBSD | DragonFly => Built (betoh16 (tgt_order t))
  | Win32 cc =>
      match tgt_order t with
      | LittleEndian =>
          match cc with
          | MSVC => Built _byteswap_ushort
          | GNUC | Clang => Built __builtin_bswap16
          | OtherCompiler => BuildError "Unsupported platform"
          end
      | BigEndian => Built (fun x => x)
      | PdpEndian => BuildError "Unsupported byte order"
      end
  | OtherPlatform => BuildError "Unsupported platform"
  end.

Definition pyi_be32toh (t : target) : build (Z -> Z) :=
  match tgt_platform t with
  | Linux | Cygwin => Built (be32toh (tgt_order t))
  | Apple => Built (OSSwapBigToHostInt32 (tgt_order t))
  | OpenBSD => Built (be32toh (tgt_order t))
  | NetBSD | FreeBSD | DragonFly => Built (betoh32 (tgt_order t))
  | Win32 cc =>
      match tgt_order t with
      | LittleEndian =>
          match cc with
          | MSVC => Built _byteswap_ulong
          | GNUC | Clang => Built __builtin_bswap32
          | OtherCompiler => BuildError "Unsupported platform"
          end
      | BigEndian => Built (fun x => x)
      | PdpEndian => BuildError "Unsupported byte order"
      end
  | OtherPlatform => BuildError "Unsupported platform"
  end.

Definition pyi_be64toh (t : target) : build (Z -> Z) :=
  match tgt_platform t with
  | Linux | Cygwin => Built (be64toh (tgt_order t))
  | Apple => Built (OSSwapBigToHostInt64 (tgt_order t))
  | OpenBSD => Built (be64toh (tgt_order t))
  | NetBSD | FreeBSD | DragonFly => Built (betoh64 (tgt_order t))
  | Win32 cc =>
      match tgt_order t with
      | LittleEndian =>
          match cc with
          | MSVC => Built _byteswap_uint64
          | GNUC | Clang => Built __builtin_bswap64
          | OtherCompiler => BuildError "Unsupported platform"
          end
      | BigEndian => Built (fun x => x)
      | PdpEndian => BuildError "Unsupported byte order"
      end
  | OtherPlatform => BuildError "Unsupported platform"
  end.

(** A target is supported when the header preprocesses without [#error]. *)
Definition supported (t : target) : bool :=
  match pyi_be16toh t, pyi_be32toh t, pyi_be64toh t with
  | Built _, Built _, Built _ => true
  | _, _, _ => false
  end.

(** Whether preprocessing gave the macro a binding. *)
Definition is_built {A : Type} (m : build A) : bool :=
  match m with
  | Built _ => true
  | BuildError _ => false
  end.

(** Applying a macro: its expansion at [x], when the build has one. *)
Definition expand (m : build (Z -> Z)) (x : Z) : option Z :=
  match m with
  | Built f => Some (f x)
  | BuildError _ => None
  end.

(** *** Byte sequences

    A wire value is a list of byte values (each in [0, 256)), first byte
    first.  [le_split] lists the bytes of [x] starting from the least
    significant one. *)

Fixpoint le_split (w : nat) (x : Z) : list Z :=
  match w with
  | O => []
  | S w' => x mod 256 :: le_split w' (x / 256)
  end.

Fixpoint le_combine (bs : list Z) : Z :=
  match bs with
  | [] => 0
  | b :: bs' => b + 256 * le_combine bs'
  end.

Definition be_combine (bs : list Z) : Z :=
  fold_left (fun acc b => acc * 256 + b) bs 0.

(** What the specification calls the full reversal of a value's bytes. *)
Definition reverse_bytes (w : nat) (x : Z) : Z :=
  le_combine (rev (le_split w x)).

(** Reading [bs] from memory as one unsigned integer of the host. *)
Definition load (o : byte_order) (bs : list Z) : option Z :=
  match o with
  | LittleEndian => Some (le_combine bs)
  | BigEndian => Some (be_combine bs)
  | PdpEndian => None
  end.

Definition is_byte (b : Z) : Prop := 0 <= b < 256.

(** The conversion in the specification's words: the bytes reversed on a
    little-endian host, the value itself on a big-endian one. *)
Definition big_endian_to_host (o : byte_order) (w : nat) (x : Z) : Z :=
  match o with
  | LittleEndian => reverse_bytes w x
  | _ => x
  end.

(** A caller's use of the macros: load the wire bytes as a host integer,
    then convert. *)
Definition wire_to_host (m : target -> build (Z -> Z)) (t : target)
  (bs : list Z) : option Z :=
  match load (tgt_order t) bs with
  | Some v => expand (m t) v
  | None => None
  end.

End Endian.

(* ====================================================================== *)
(** ** Diagnostic emission layer ([pyi_global.c])                         *)
(* ====================================================================== *)

Module Global.

(** *** Constants *)

(** Text length of MessageBox(). *)
Definition MBTXTLEN : Z := 1024.
Definition VPRINTF_TO_STDERR_BUFSIZE : Z := MBTXTLEN * 2.

(** From [<windows.h>], [<limits.h>] and [<syslog.h>]. *)
Definition MB_OK : Z := 0.
Definition MB_ICONEXCLAMATION : Z := 48.
Definition MB_ICONWARNING : Z := 48.
Definition LOG_NOTICE : Z := 5.
Definition INT_MAX : Z := 2147483647.
Definition INT_MIN : Z := -2147483648.

(** [size_t] is taken 64 bits wide, as on Win64; an [int] assigned to it
    wraps around. *)
Definition SIZE_BITS : Z := 64.
Definition to_size_t (z : Z) : Z := z mod 2 ^ SIZE_BITS.

(** *** Character data *)

(** A UTF-16 code unit. *)
Definition wchar := Z.

Definition NUL : byte := x00.

(** The C string that starts at the head of [l]: everything before the
    first NUL (or all of [l] when it holds none). *)
Fixpoint c_str (l : list byte) : list byte :=
  match l with
  | [] => []
  | c :: l' => if Byte.eqb c NUL then [] else c :: c_str l'
  end.

Fixpoint w_str (l : list wchar) : list wchar :=
  match l with
  | [] => []
  | c :: l' => if c =? 0 then [] else c :: w_str l'
  end.

Definition strlen (s : list byte) : Z := Z.of_nat (length (c_str s)).

(** Whether a NUL occurs in [l], so that reading a string from it stops
    inside [l]. *)
Definition terminated (l : list byte) : bool :=
  existsb (fun c => Byte.eqb c NUL) l.

Definition bytes (s : string) : list byte := list_byte_of_string s.

(** *** Stack buffers

    [cells] are the bytes of the array; [stray] logs, latest first, every
    store whose index falls outside it, with the index and the byte.  Such
    a store leaves the array itself as it was. *)
Record buffer := Buffer { cells : list byte; stray : list (nat * byte) }.

(** An uninitialised array of [n] chars: its contents are whatever the
    stack holds, given by [junk]. *)
Definition alloca (junk : nat -> byte) (n : Z) : buffer :=
  Buffer (map junk (seq 0 (Z.to_nat n))) [].

Definition store (b : buffer) (i : nat) (c : byte) : buffer :=
  if (i <? length (cells b))%nat
  then Buffer (<[i := c]> (cells b)) (stray b)
  else Buffer (cells b) ((i, c) :: stray b).

Fixpoint store_list (b : buffer) (i : nat) (l : list byte) : buffer :=
  match l with
  | [] => b
  | c :: l' => store_list (store b i c) (S i) l'
  end.

(** *** The C library calls, on rendered text

    A format with its arguments is represented by [r], the bytes it
    renders to.  [vsnprintf] follows C99: at most [n - 1] of them are
    stored, then a NUL, and the length of the whole rendering is
    returned, or a negative value when it does not fit an [int]. *)
Definition vsnprintf (b : buffer) (dst : nat) (n : Z) (r : list byte)
  : buffer * Z :=
  let ret := if Z.of_nat (length r) <=? INT_MAX
             then Z.of_nat (length r) else -1 in
  if n <=? 0 then (b, ret)
  else
    let kept := take (Z.to_nat (n - 1)) r in
    (store (store_list b dst kept) (dst + length kept) NUL, ret).

Definition sprintf (b : buffer) (dst : nat) (r : list byte) : buffer * Z :=
  (store (store_list b dst r) (dst + length r) NUL, Z.of_nat (length r)).

(** [strncpy] stores exactly [n] bytes: the characters of [src], then
    NULs up to [n]; nothing ends the copy when [src] has [n] characters
    or more. *)
Definition strncpy (b : buffer) (dst : nat) (src : list byte) (n : Z)
  : buffer :=
  let k := Z.to_nat n in
  store_list b dst (take k (c_str src ++ replicate k NUL)).

(** [%d] of an [int]: at most ten digits, with a sign. *)
Definition digit_char (d : Z) : byte :=
  match d with
  | 0 => x30 | 1 => x31 | 2 => x32 | 3 => x33 | 4 => x34
  | 5 => x35 | 6 => x36 | 7 => x37 | 8 => x38 | _ => x39
  end.

Fixpoint utoa (fuel : nat) (n : Z) (acc : list byte) : list byte :=
  match fuel with
  | O => acc
  | S fuel' =>
      let acc' := digit_char (n mod 10) :: acc in
      if n <? 10 then acc' else utoa fuel' (n / 10) acc'
  end.

Definition fmt_d (v : Z) : list byte :=
  if v <? 0 then x2d :: utoa 10 (- v) [] else utoa 10 v [].

(** The rendering of ["[%d] "]. *)
Definition fmt_pid (pid : Z) : list byte :=
  bytes "[" ++ fmt_d pid ++ bytes "] ".

(** *** Sinks *)

Inductive event :=
| MessageBoxW (text caption : list wchar) (uType : Z)
| MessageBoxA (text caption : list byte) (uType : Z)
| OutputDebugStringA (text : list byte)
| Stderr (text : list byte)
| Syslog (priority : Z) (text : list byte).


(** *** What the code reads from its surroundings

    The conversion helpers live in [pyi_win32_utils.c] and the error
    resolvers in the platform; each is a field here.  A converter takes
    the destination's contents, the source string and the destination's
    capacity in characters, and gives the destination's new contents
    with [true] for a non-NULL return. *)
Record world := World {
  pyi_win32_utils_from_utf8 : list wchar -> list byte -> Z -> list wchar * bool;
  pyi_win32_utf8_to_mbs : list byte -> list byte -> Z -> list byte * bool;
  GetWinErrorString : Z -> list byte;
  strerror : Z -> list byte;
  GetLastError : Z;
  errno : Z;
  getpid : Z;
  stack_bytes : nat -> byte;
  stack_wide : nat -> wchar
}.

(** The compile-time switches. *)
Record config := Config {
  _WIN32 : bool;
  __APPLE__ : bool;
  WINDOWED : bool;
  LAUNCH_DEBUG : bool
}.

(** *** The emitters

    Each windowed emitter gives back its local [msg] buffer as it stands
    at the call that shows it, next to the events it produced. *)

(** The two locals of [show_message_box]: [wmsg] is uninitialised,
    [wcaption] starts as the empty wide string, which zero-fills it. *)
Definition wmsg_initial (w : world) : list wchar :=
  map (stack_wide w) (seq 0 (Z.to_nat MBTXTLEN)).

Definition wcaption_initial : list wchar :=
  replicate (Z.to_nat MBTXTLEN) 0.

Definition show_message_box (w : world) (msg caption : list byte) (uType : Z)
  : list event :=
  let wmsg := wmsg_initial w in
  let wcaption := wcaption_initial in
  let '(wmsg, ok) := pyi_win32_utils_from_utf8 w wmsg (c_str msg) MBTXTLEN in
  if ok then
    let '(wcaption, _) :=
      pyi_win32_utils_from_utf8 w wcaption (c_str caption) MBTXTLEN in
    [MessageBoxW (w_str wmsg) (w_str wcaption) (Z.lor MB_OK uType)]
  else
    [MessageBoxA (c_str msg) (c_str caption) (Z.lor MB_OK uType)].

Definition mbfatalerror (w : world) (r : list byte) : buffer * list event :=
  let msg := alloca (stack_bytes w) MBTXTLEN in
  let '(msg, _) := vsnprintf msg 0 MBTXTLEN r in
  (msg, show_message_box w (cells msg) (bytes "Fatal error detected")
                         MB_ICONEXCLAMATION).

Definition mbothererror (w : world) (r : list byte) : buffer * list event :=
  let msg := alloca (stack_bytes w) MBTXTLEN in
  let '(msg, _) := vsnprintf msg 0 MBTXTLEN r in
  (msg, show_message_box w (cells msg) (bytes "Error detected")
                         MB_ICONWARNING).

Definition mbfatal_winerror (w : world) (funcname r : list byte)
  : buffer * list event :=
  let msg := alloca (stack_bytes w) MBTXTLEN in
  let error_code := GetLastError w in
  let '(msg, ret) := vsnprintf msg 0 MBTXTLEN r in
  let size := to_size_t ret in
  let '(msg, size) :=
    if size <? MBTXTLEN then
      (strncpy msg (Z.to_nat size) funcname (to_size_t (MBTXTLEN - size - 1)),
       to_size_t (size + strlen funcname))
    else (msg, size) in
  let '(msg, size) :=
    if size <? MBTXTLEN then
      (strncpy msg (Z.to_nat size) (bytes ": ") 2, to_size_t (size + 2))
    else (msg, size) in
  let msg :=
    if size <? MBTXTLEN then
      strncpy msg (Z.to_nat size) (GetWinErrorString w error_code)
              (to_size_t (MBTXTLEN - size - 1))
    else msg in
  let msg := store msg (Z.to_nat (MBTXTLEN - 1)) NUL in
  (msg, show_message_box w (cells msg) (bytes "Fatal error detected")
                         MB_ICONEXCLAMATION).

Definition mbfatal_perror (w : world) (funcname r : list byte)
  : buffer * list event :=
  let msg := alloca (stack_bytes w) MBTXTLEN in
  let '(msg, ret) := vsnprintf msg 0 MBTXTLEN r in
  let size := to_size_t ret in
  let '(msg, size) :=
    if size <? MBTXTLEN then
      (strncpy msg (Z.to_nat size) funcname (to_size_t (MBTXTLEN - size - 1)),
       to_size_t (size + strlen funcname))
    else (msg, size) in
  let '(msg, size) :=
    if size <? MBTXTLEN then
      (strncpy msg (Z.to_nat size) (bytes ": ") 2, to_size_t (size + 2))
    else (msg, size) in
  let msg :=
    if size <? MBTXTLEN then
      strncpy msg (Z.to_nat size) (strerror w (errno w))
              (to_size_t (MBTXTLEN - size - 1))
    else msg in
  let msg := store msg (Z.to_nat (MBTXTLEN - 1)) NUL in
  (msg, show_message_box w (cells msg) (bytes "Fatal error detected")
                         MB_ICONEXCLAMATION).

Definition mbvs (w : world) (r : list byte) : buffer * list event :=
  let msg := alloca (stack_bytes w) MBTXTLEN in
  let '(msg, pid_len) := sprintf msg 0 (fmt_pid (getpid w)) in
  let '(msg, _) :=
    vsnprintf msg (Z.to_nat pid_len) (to_size_t (MBTXTLEN - pid_len)) r in
  (msg, [OutputDebugStringA (c_str (cells msg))]).

(** The two locals of [vprintf_to_stderr] on Windows, after rendering. *)
Definition utf8_buffer (w : world) (r : list byte) : buffer :=
  fst (vsnprintf (alloca (stack_bytes w) VPRINTF_TO_STDERR_BUFSIZE)
                 0 VPRINTF_TO_STDERR_BUFSIZE r).

Definition mbcs_buffer (w : world) : buffer :=
  alloca (fun i => stack_bytes w (Z.to_nat VPRINTF_TO_STDERR_BUFSIZE + i)%nat)
         VPRINTF_TO_STDERR_BUFSIZE.

Definition vprintf_to_stderr (cfg : config) (w : world) (r : list byte)
  : list event :=
  if _WIN32 cfg then
    let utf8 := cells (utf8_buffer w r) in
    let '(mbcs, ok) :=
      pyi_win32_utf8_to_mbs w (cells (mbcs_buffer w)) (c_str utf8)
                            VPRINTF_TO_STDERR_BUFSIZE in
    if ok then [Stderr (c_str mbcs)] else [Stderr (c_str utf8)]
  else [Stderr r].

Definition printf_to_stderr := vprintf_to_stderr.

Definition pyi_global_printf (cfg : config) (w : world) (r : list byte)
  : list event :=
  [Stderr (fmt_pid (getpid w))]
  ++ vprintf_to_stderr cfg w r
  ++ (if __APPLE__ cfg && WINDOWED cfg && LAUNCH_DEBUG cfg
      then [Syslog LOG_NOTICE r] else []).

(** *** Notions used to state the properties *)

(** Outcome of the two conversions [show_message_box] attempts. *)
Definition message_converts (w : world) (msg : list byte) : bool :=
  snd (pyi_win32_utils_from_utf8 w (wmsg_initial w) (c_str msg) MBTXTLEN).


(** A trace carries a note about [msg] when it is anything else than the
    one ANSI dialog of the caller's own text, caption and type. *)
Definition carries_note (msg caption : list byte) (uType : Z)
  (tr : list event) : Prop :=
  tr <> [MessageBoxA (c_str msg) (c_str caption) (Z.lor MB_OK uType)].

(** The text of an ANSI dialog has at most [limit] characters. *)
Definition narrow_text_within (limit : nat) (ev : event) : Prop :=
  match ev with
  | MessageBoxA text _ _ => (length text <= limit)%nat
  | _ => True
  end.

(** A [msg] buffer of a dialog emitter holds a string that ends inside
    its 1024 bytes. *)
Definition within_capacity (msg : buffer) : Prop :=
  length (cells msg) = 1024%nat /\ terminated (cells msg) = true
  /\ strlen (cells msg) <= 1023.

(** The first 1023 cells of a buffer that holds [c] and NULs after it. *)
Definition padded (c : list byte) : list byte :=
  take 1023 (c ++ replicate 1023 NUL).








(** [mbfatal_perror] is [mbfatal_winerror] in a world whose Windows
    description is [strerror (errno)]. *)
Definition as_winerror (w : world) : world :=
  World (pyi_win32_utils_from_utf8 w) (pyi_win32_utf8_to_mbs w)
        (fun _ => strerror w (errno w)) (strerror w)
        (GetLastError w) (errno w) (getpid w) (stack_bytes w) (stack_wide w).

End Global.

(* ====================================================================== *)
(** ** A concrete world, for running the emitters                         *)
(* ====================================================================== *)

Module Sample.
Import Global.

Definition ascii_only (s : list byte) : bool :=
  forallb (fun c => (Byte.to_N c <? 128)%N) s.

(** Converters that accept 7-bit text that fits, terminate it, and
    refuse anything else without touching the destination. *)
Definition widen (dst : list wchar) (src : list byte) (n : Z)
  : list wchar * bool :=
  if ascii_only src && (Z.of_nat (length src) <? n)
  then (map (fun c => Z.of_N (Byte.to_N c)) src
        ++ 0 :: drop (S (length src)) dst, true)
  else (dst, false).

Definition narrow (dst : list byte) (src : list byte) (n : Z)
  : list byte * bool :=
  if ascii_only src && (Z.of_nat (length src) <? n)
  then (src ++ NUL :: drop (S (length src)) dst, true)
  else (dst, false).

Definition sample_world : world :=
  World widen narrow
        (fun _ => bytes "Access is denied.")
        (fun _ => bytes "No such file or directory")
        5 2 4242 (fun _ => xaa) (fun _ => 43690).

Definition windowed_debug : config := Config true false true true.

(** A rendering of [n] letters. *)
Definition letters (n : nat) : list byte := replicate n x41.

(** Two bytes that are not UTF-8, in a terminated buffer. *)
Definition garbled : list byte := [xc3; x28; NUL].

(** A rendering with a NUL byte in its middle, as ["%s%c%s"] gives with
    a zero character. *)
Definition interrupted : list byte := letters 500 ++ NUL :: letters 1000.





End Sample.

(* ====================================================================== *)
(** ** Properties of the endianness layer                                 *)
(* ====================================================================== *)

Module EndianFacts.
Import Endian.

Lemma land_shiftl_low (hi lo n : Z) :
  0 <= n -> 0 <= lo < 2 ^ n -> Z.land (Z.shiftl hi n) lo = 0.
Proof.
  intros Hn Hlo. apply Z.bits_inj'. intros i Hi.
  rewrite Z.land_spec, Z.bits_0.
  destruct (Z.lt_ge_cases i n) as [Hlt | Hge].
  - rewrite Z.shiftl_spec_low by assumption. reflexivity.
  - rewrite <- (Z.mod_small lo (2 ^ n)) by assumption.
    rewrite Z.mod_pow2_bits_high by lia. apply andb_false_r.
Qed.

Lemma lor_shiftl_add (hi lo n : Z) :
  0 <= n -> 0 <= lo < 2 ^ n -> Z.lor (Z.shiftl hi n) lo = hi * 2 ^ n + lo.
Proof.
  intros Hn Hlo.
  rewrite <- Z.lxor_lor by (apply land_shiftl_low; assumption).
  rewrite <- Z.add_nocarry_lxor by (apply land_shiftl_low; assumption).
  rewrite Z.shiftl_mul_pow2 by assumption. reflexivity.
Qed.

Lemma byte_at (x k : Z) :
  0 <= k -> Z.land (Z.shiftr x k) 255 = (x / 2 ^ k) mod 256.
Proof.
  intros Hk. rewrite Z.shiftr_div_pow2 by assumption.
  change 255 with (Z.ones 8). rewrite Z.land_ones by lia. reflexivity.
Qed.

Lemma byte_at_0 (x : Z) : Z.land x 255 = x mod 256.
Proof. change 255 with (Z.ones 8). rewrite Z.land_ones by lia. reflexivity. Qed.

Lemma be_combine_acc (bs : list Z) (acc : Z) :
  fold_left (fun a b => a * 256 + b) bs acc
  = acc * 256 ^ Z.of_nat (length bs) + be_combine bs.
Proof.
  unfold be_combine. revert acc.
  induction bs as [|b bs IH]; intros acc.
  - simpl. lia.
  - cbn [fold_left length]. rewrite IH, (IH (0 * 256 + b)).
    rewrite Nat2Z.inj_succ, Z.pow_succ_r by lia. ring.
Qed.

Lemma be_combine_cons (b : Z) (bs : list Z) :
  be_combine (b :: bs) = b * 256 ^ Z.of_nat (length bs) + be_combine bs.
Proof.
  unfold be_combine at 1. cbn [fold_left]. rewrite be_combine_acc. ring.
Qed.

Lemma le_combine_snoc (bs : list Z) (b : Z) :
  le_combine (bs ++ [b]) = le_combine bs + 256 ^ Z.of_nat (length bs) * b.
Proof.
  induction bs as [|c bs IH].
  - simpl. lia.
  - cbn [app le_combine length]. rewrite IH.
    rewrite Nat2Z.inj_succ, Z.pow_succ_r by lia. ring.
Qed.

Lemma le_combine_rev (bs : list Z) : le_combine (rev bs) = be_combine bs.
Proof.
  induction bs as [|b bs IH].
  - reflexivity.
  - cbn [rev]. rewrite le_combine_snoc, be_combine_cons, IH.
    rewrite length_rev. ring.
Qed.

Lemma le_split_length (w : nat) (x : Z) : length (le_split w x) = w.
Proof. revert x. induction w; intros; simpl; auto. Qed.

Lemma le_split_bytes (w : nat) (x : Z) : Forall is_byte (le_split w x).
Proof.
  revert x. induction w as [|w IH]; intros x; simpl; constructor.
  - unfold is_byte. apply Z.mod_pos_bound. lia.
  - apply IH.
Qed.

Lemma le_combine_split (w : nat) (x : Z) :
  le_combine (le_split w x) = x mod 256 ^ Z.of_nat w.
Proof.
  revert x. induction w as [|w IH]; intros x.
  - simpl. rewrite Z.mod_1_r. reflexivity.
  - cbn [le_split le_combine]. rewrite IH.
    rewrite Nat2Z.inj_succ, Z.pow_succ_r by lia.
    rewrite Z.rem_mul_r by lia. reflexivity.
Qed.

Lemma le_split_combine (bs : list Z) :
  Forall is_byte bs -> le_split (length bs) (le_combine bs) = bs.
Proof.
  induction 1 as [|b bs Hb Hbs IH]; [reflexivity|].
  cbn [length le_split le_combine]. unfold is_byte in Hb.
  replace (b + 256 * le_combine bs) with (b + le_combine bs * 256) by ring.
  rewrite Z.mod_add, Z.div_add by lia.
  rewrite Z.mod_small, Z.div_small, Z.add_0_l by assumption.
  rewrite IH. reflexivity.
Qed.

Lemma le_combine_range (bs : list Z) :
  Forall is_byte bs -> 0 <= le_combine bs < 256 ^ Z.of_nat (length bs).
Proof.
  induction 1 as [|b bs Hb Hbs IH]; cbn [le_combine length]; [lia|].
  unfold is_byte in Hb.
  rewrite Nat2Z.inj_succ, Z.pow_succ_r by lia. lia.
Qed.

Lemma reverse_bytes_range (w : nat) (x : Z) :
  0 <= reverse_bytes w x < 256 ^ Z.of_nat w.
Proof.
  unfold reverse_bytes.
  pose proof (le_combine_range (rev (le_split w x))) as H.
  rewrite length_rev, le_split_length in H.
  apply H, Forall_rev, le_split_bytes.
Qed.

Lemma reverse_bytes_involutive (w : nat) (x : Z) :
  0 <= x < 256 ^ Z.of_nat w -> reverse_bytes w (reverse_bytes w x) = x.
Proof.
  intros Hx. unfold reverse_bytes.
  assert (Hl : length (rev (le_split w x)) = w)
    by (rewrite length_rev; apply le_split_length).
  rewrite <- Hl at 1. rewrite le_split_combine.
  - rewrite rev_involutive, le_combine_split. apply Z.mod_small. assumption.
  - apply Forall_rev. apply le_split_bytes.
Qed.

Lemma pack2 (b0 b1 : Z) :
  is_byte b0 -> is_byte b1 ->
  Z.lor (Z.shiftl b0 8) b1 = be_combine [b0; b1].
Proof.
  unfold is_byte, be_combine. intros H0 H1. cbn [fold_left].
  rewrite (lor_shiftl_add b0 b1 8) by lia. lia.
Qed.

Lemma pack4 (b0 b1 b2 b3 : Z) :
  is_byte b0 -> is_byte b1 -> is_byte b2 -> is_byte b3 ->
  Z.lor (Z.shiftl b0 24) (Z.lor (Z.shiftl b1 16) (Z.lor (Z.shiftl b2 8) b3))
  = be_combine [b0; b1; b2; b3].
Proof.
  unfold is_byte, be_combine. intros H0 H1 H2 H3. cbn [fold_left].
  rewrite (lor_shiftl_add b2 b3 8) by lia.
  rewrite (lor_shiftl_add b1 _ 16) by lia.
  rewrite (lor_shiftl_add b0 _ 24) by lia. lia.
Qed.

Lemma pack8 (b0 b1 b2 b3 b4 b5 b6 b7 : Z) :
  is_byte b0 -> is_byte b1 -> is_byte b2 -> is_byte b3 ->
  is_byte b4 -> is_byte b5 -> is_byte b6 -> is_byte b7 ->
  Z.lor (Z.shiftl b0 56) (Z.lor (Z.shiftl b1 48) (Z.lor (Z.shiftl b2 40)
 (Z.lor (Z.shiftl b3 32) (Z.lor (Z.shiftl b4 24) (Z.lor (Z.shiftl b5 16)
 (Z.lor (Z.shiftl b6 8) b7))))))
  = be_combine [b0; b1; b2; b3; b4; b5; b6; b7].
Proof.
  unfold is_byte, be_combine. intros H0 H1 H2 H3 H4 H5 H6 H7.
  cbn [fold_left].
  rewrite (lor_shiftl_add b6 b7 8) by lia.
  rewrite (lor_shiftl_add b5 _ 16) by lia.
  rewrite (lor_shiftl_add b4 _ 24) by lia.
  rewrite (lor_shiftl_add b3 _ 32) by lia.
  rewrite (lor_shiftl_add b2 _ 40) by lia.
  rewrite (lor_shiftl_add b1 _ 48) by lia.
  rewrite (lor_shiftl_add b0 _ 56) by lia. lia.
Qed.

Lemma le_split_nth (w : nat) (x : Z) (k : nat) :
  (k < w)%nat ->
  le_split w x !! k = Some (Z.land (Z.shiftr x (8 * Z.of_nat k)) 255).
Proof.
  revert x k. induction w as [|w IH]; intros x k Hk; [lia|].
  destruct k as [|k]; cbn [le_split lookup list_lookup].
  - rewrite Z.shiftr_0_r, byte_at_0. reflexivity.
  - rewrite IH by lia. f_equal.
    replace (x / 256) with (Z.shiftr x 8)
      by (rewrite Z.shiftr_div_pow2 by lia; reflexivity).
    rewrite Z.shiftr_shiftr by lia. do 2 f_equal. lia.
Qed.

Lemma land_255_byte (y : Z) : is_byte (Z.land y 255).
Proof. rewrite byte_at_0. apply Z.mod_pos_bound. lia. Qed.

Lemma le_split_2 (x : Z) :
  le_split 2 x = [Z.land x 255; Z.land (Z.shiftr x 8) 255].
Proof.
  apply list_eq. intros [|[|k]]; try reflexivity;
    rewrite le_split_nth by lia; reflexivity.
Qed.

Lemma bswap16_reverse (x : Z) : bswap16 x = reverse_bytes 2 x.
Proof.
  unfold reverse_bytes, bswap16.
  rewrite le_combine_rev, le_split_2.
  apply pack2; apply land_255_byte.
Qed.

Lemma bswap32_reverse (x : Z) : bswap32 x = reverse_bytes 4 x.
Proof.
  unfold reverse_bytes, bswap32.
  rewrite le_combine_rev.
  replace (le_split 4 x) with
    [Z.land x 255; Z.land (Z.shiftr x 8) 255;
     Z.land (Z.shiftr x 16) 255; Z.land (Z.shiftr x 24) 255].
  - apply pack4; apply land_255_byte.
  - symmetry. apply list_eq. intros [|[|[|[|k]]]]; try reflexivity;
      rewrite le_split_nth by lia; reflexivity.
Qed.

Lemma bswap64_reverse (x : Z) : bswap64 x = reverse_bytes 8 x.
Proof.
  unfold reverse_bytes, bswap64.
  rewrite le_combine_rev.
  replace (le_split 8 x) with
    [Z.land x 255; Z.land (Z.shiftr x 8) 255;
     Z.land (Z.shiftr x 16) 255; Z.land (Z.shiftr x 24) 255;
     Z.land (Z.shiftr x 32) 255; Z.land (Z.shiftr x 40) 255;
     Z.land (Z.shiftr x 48) 255; Z.land (Z.shiftr x 56) 255].
  - apply pack8; apply land_255_byte.
  - symmetry. apply list_eq.
    intros [|[|[|[|[|[|[|[|k]]]]]]]]; try reflexivity;
      rewrite le_split_nth by lia; reflexivity.
Qed.


Ltac each_target t :=
  let p := fresh "p" in
  let o := fresh "o" in
  let cc := fresh "cc" in
  destruct t as [p o]; destruct o;
  (destruct p as [ | | | | | | | cc | ]; try destruct cc).

(** What each macro expands to, per byte order. *)
Lemma macros_expand (t : target) (x : Z) :
  supported t = true -> tgt_order t <> PdpEndian ->
  expand (pyi_be16toh t) x = Some (big_to_host bswap16 (tgt_order t) x)
  /\ expand (pyi_be32toh t) x = Some (big_to_host bswap32 (tgt_order t) x)
  /\ expand (pyi_be64toh t) x = Some (big_to_host bswap64 (tgt_order t) x).
Proof.
  intros Hsup Hord.
  each_target t; cbn in Hsup, Hord; try discriminate; try contradiction;
    repeat split.
Qed.

(** C3: on every supported target, each of the three macros expands, and
    what it computes is the full reversal of the value's bytes on a
    little-endian host and the value itself on a big-endian host.  The
    macros are total: no input makes them fail. *)
Theorem big_endian_to_host_correct (t : target) (x : Z) :
  supported t = true -> tgt_order t <> PdpEndian ->
  expand (pyi_be16toh t) x = Some (big_endian_to_host (tgt_order t) 2 x)
  /\ expand (pyi_be32toh t) x = Some (big_endian_to_host (tgt_order t) 4 x)
  /\ expand (pyi_be64toh t) x = Some (big_endian_to_host (tgt_order t) 8 x).
Proof.
  intros Hsup Hord.
  destruct (macros_expand t x Hsup Hord) as (H16 & H32 & H64).
  rewrite H16, H32, H64.
  destruct (tgt_order t); cbn [big_to_host big_endian_to_host];
    rewrite ?bswap16_reverse, ?bswap32_reverse, ?bswap64_reverse; auto.
Qed.

Lemma big_endian_to_host_correct_witness :
  supported (Target (Win32 MSVC) LittleEndian) = true
  /\ tgt_order (Target (Win32 MSVC) LittleEndian) <> PdpEndian
  /\ expand (pyi_be16toh (Target (Win32 MSVC) LittleEndian)) 4660
     = Some (big_endian_to_host LittleEndian 2 4660)
  /\ expand (pyi_be32toh (Target (Win32 MSVC) LittleEndian)) 4660
     = Some (big_endian_to_host LittleEndian 4 4660)
  /\ expand (pyi_be64toh (Target (Win32 MSVC) LittleEndian)) 4660
     = Some (big_endian_to_host LittleEndian 8 4660).
Proof.
  assert (Hsup : supported (Target (Win32 MSVC) LittleEndian) = true)
    by reflexivity.
  assert (Hord : tgt_order (Target (Win32 MSVC) LittleEndian) <> PdpEndian)
    by (simpl; discriminate).
  exact (conj Hsup (conj Hord
           (big_endian_to_host_correct (Target (Win32 MSVC) LittleEndian)
              4660 Hsup Hord))).
Defined.

(** The reversal of 0x1234 at the three widths, and a big-endian host. *)
Example reverse_1234 :
  reverse_bytes 2 4660 = 13330 /\ reverse_bytes 4 4660 = 873594880
  /\ reverse_bytes 8 4660 = 3752061439553044480
  /\ expand (pyi_be32toh (Target Linux BigEndian)) 4660 = Some 4660.
Proof. repeat split. Qed.

(** C4: the wire bytes 00 00 01 00 give 256 through the 32-bit macro and
    the wire bytes 01 00 give 256 through the 16-bit macro, on every
    supported target of either byte order. *)
Theorem wire_examples (t : target) :
  supported t = true -> tgt_order t <> PdpEndian ->
  wire_to_host pyi_be32toh t [0; 0; 1; 0] = Some 256
  /\ wire_to_host pyi_be16toh t [1; 0] = Some 256.
Proof.
  intros Hsup Hord.
  each_target t; cbn in Hsup, Hord; try discriminate; try contradiction;
    split; reflexivity.
Qed.

Lemma wire_examples_witness :
  supported (Target Apple BigEndian) = true
  /\ tgt_order (Target Apple BigEndian) <> PdpEndian
  /\ wire_to_host pyi_be32toh (Target Apple BigEndian) [0; 0; 1; 0] = Some 256
  /\ wire_to_host pyi_be16toh (Target Apple BigEndian) [1; 0] = Some 256.
Proof.
  assert (Hsup : supported (Target Apple BigEndian) = true) by reflexivity.
  assert (Hord : tgt_order (Target Apple BigEndian) <> PdpEndian)
    by (simpl; discriminate).
  exact (conj Hsup (conj Hord
           (wire_examples (Target Apple BigEndian) Hsup Hord))).
Defined.

(** More generally, a wire sequence of the right width decodes to the
    number it denotes in big-endian order. *)
Lemma wire_to_host_big_endian (t : target) (bs : list Z) :
  supported t = true -> tgt_order t <> PdpEndian -> Forall is_byte bs ->
  (length bs = 2%nat -> wire_to_host pyi_be16toh t bs = Some (be_combine bs))
  /\ (length bs = 4%nat -> wire_to_host pyi_be32toh t bs = Some (be_combine bs))
  /\ (length bs = 8%nat -> wire_to_host pyi_be64toh t bs = Some (be_combine bs)).
Proof.
  intros Hsup Hord Hbs.
  assert (Hswap : forall w, length bs = w ->
            reverse_bytes w (le_combine bs) = be_combine bs).
  { intros w <-. unfold reverse_bytes.
    rewrite le_split_combine by assumption. apply le_combine_rev. }
  pose proof (macros_expand t) as Hconv.
  unfold wire_to_host.
  destruct t as [p o]. cbn [tgt_order] in *.
  destruct o; [ | | contradiction]; cbn [load];
    (repeat split; intros Hlen;
     destruct (Hconv (le_combine bs) Hsup Hord) as (H16 & H32 & H64);
     destruct (Hconv (be_combine bs) Hsup Hord) as (H16' & H32' & H64');
     cbn [big_to_host] in *;
     rewrite ?H16, ?H32, ?H64, ?H16', ?H32', ?H64';
     rewrite ?bswap16_reverse, ?bswap32_reverse, ?bswap64_reverse;
     rewrite ?Hswap by assumption; reflexivity).
Qed.

End EndianFacts.

(* ====================================================================== *)
(** ** Properties of the diagnostic emission layer                        *)
(* ====================================================================== *)

Module GlobalFacts.
Import Global Sample.

(** *** Strings *)

Lemma eqb_NUL (c : byte) : Byte.eqb c NUL = false <-> c <> NUL.
Proof.
  split.
  - apply Byte.eqb_false.
  - intros Hc. destruct (Byte.eqb c NUL) eqn:E; [|reflexivity].
    apply Byte.byte_dec_bl in E. contradiction.
Qed.

Lemma c_str_nul_free (l : list byte) : Forall (fun c => c <> NUL) (c_str l).
Proof.
  induction l as [|c l IH]; cbn [c_str]; [constructor|].
  destruct (Byte.eqb c NUL) eqn:E; constructor; [|exact IH].
  apply eqb_NUL. exact E.
Qed.

Lemma c_str_app (s t : list byte) :
  Forall (fun c => c <> NUL) s -> c_str (s ++ t) = s ++ c_str t.
Proof.
  induction 1 as [|c s Hc Hs IH]; [reflexivity|].
  cbn [app c_str]. apply eqb_NUL in Hc. rewrite Hc, IH. reflexivity.
Qed.

Lemma c_str_stop (s t : list byte) : c_str (s ++ NUL :: t) = c_str s.
Proof.
  induction s as [|c s IH]; [reflexivity|].
  cbn [app c_str]. destruct (Byte.eqb c NUL); [reflexivity|].
  rewrite IH. reflexivity.
Qed.

Lemma c_str_id (s : list byte) :
  Forall (fun c => c <> NUL) s -> c_str s = s.
Proof.
  intros Hs. rewrite <- (app_nil_r s) at 1.
  rewrite c_str_app by assumption. apply app_nil_r.
Qed.

Lemma c_str_length (l : list byte) : (length (c_str l) <= length l)%nat.
Proof.
  induction l as [|c l IH]; cbn [c_str]; [lia|].
  destruct (Byte.eqb c NUL); cbn [length]; lia.
Qed.

Lemma c_str_before_nul (l : list byte) (k : nat) :
  l !! k = Some NUL -> (length (c_str l) <= k)%nat.
Proof.
  revert k. induction l as [|c l IH]; intros k Hk; [discriminate|].
  cbn [c_str]. destruct k as [|k]; cbn in Hk.
  - injection Hk as ->. cbn. lia.
  - destruct (Byte.eqb c NUL); cbn [length]; [lia|].
    specialize (IH k Hk). lia.
Qed.

Lemma terminated_lookup (l : list byte) (k : nat) :
  l !! k = Some NUL -> terminated l = true.
Proof.
  intros Hk. unfold terminated. apply existsb_exists.
  exists NUL. split; [|reflexivity].
  apply list_elem_of_In. eapply list_elem_of_lookup_2. exact Hk.
Qed.

(** *** Buffers *)

Lemma alloca_length (junk : nat -> byte) (n : Z) :
  length (cells (alloca junk n)) = Z.to_nat n.
Proof. unfold alloca. cbn [cells]. rewrite length_map, length_seq. reflexivity. Qed.

Lemma alloca_stray (junk : nat -> byte) (n : Z) : stray (alloca junk n) = [].
Proof. reflexivity. Qed.

Lemma store_length (b : buffer) (i : nat) (c : byte) :
  length (cells (store b i c)) = length (cells b).
Proof.
  unfold store. destruct (i <? length (cells b))%nat; cbn [cells];
    [apply length_insert | reflexivity].
Qed.

Lemma store_list_length (l : list byte) (b : buffer) (i : nat) :
  length (cells (store_list b i l)) = length (cells b).
Proof.
  revert b i. induction l as [|c l IH]; intros b i; cbn [store_list];
    [reflexivity|].
  rewrite IH. apply store_length.
Qed.

Lemma store_inside (b : buffer) (i : nat) (c : byte) :
  (i < length (cells b))%nat ->
  store b i c
  = Buffer (take i (cells b) ++ c :: drop (S i) (cells b)) (stray b).
Proof.
  intros Hi. unfold store.
  apply Nat.ltb_lt in Hi as Hb. rewrite Hb.
  rewrite insert_take_drop by assumption. reflexivity.
Qed.

Lemma store_outside (b : buffer) (i : nat) (c : byte) :
  (length (cells b) <= i)%nat ->
  store b i c = Buffer (cells b) ((i, c) :: stray b).
Proof.
  intros Hi. unfold store.
  apply Nat.ltb_ge in Hi. rewrite Hi. reflexivity.
Qed.

Lemma store_list_inside (l : list byte) (b : buffer) (i : nat) :
  (i + length l <= length (cells b))%nat ->
  store_list b i l
  = Buffer (take i (cells b) ++ l ++ drop (i + length l) (cells b)) (stray b).
Proof.
  revert b i. induction l as [|c l IH]; intros b i Hi.
  - cbn [store_list app length]. rewrite Nat.add_0_r, take_drop.
    destruct b; reflexivity.
  - cbn [store_list length] in *.
    rewrite store_inside by lia.
    rewrite IH by (cbn [cells]; rewrite length_app, length_take; cbn [length];
                   rewrite length_drop; lia).
    cbn [cells stray]. f_equal.
    assert (Hlen : length (take i (cells b)) = i)
      by (rewrite length_take; lia).
    rewrite (take_app_ge _ _ (S i)) by lia.
    rewrite (drop_app_ge _ _ (S i + length l)) by lia.
    rewrite Hlen.
    replace (S i - i)%nat with 1%nat by lia.
    replace (S i + length l - i)%nat with (S (length l)) by lia.
    cbn [take drop]. rewrite take_0, drop_drop.
    rewrite <- app_assoc. cbn [app].
    do 4 f_equal. lia.
Qed.

Lemma strncpy_length (b : buffer) (dst : nat) (src : list byte) (n : Z) :
  length (cells (strncpy b dst src n)) = length (cells b).
Proof. apply store_list_length. Qed.

Lemma vsnprintf_length (b : buffer) (dst : nat) (n : Z) (r : list byte) :
  length (cells (fst (vsnprintf b dst n r))) = length (cells b).
Proof.
  unfold vsnprintf. destruct (n <=? 0); cbn [fst]; [reflexivity|].
  rewrite store_length. apply store_list_length.
Qed.

(** What [vsnprintf] leaves in a buffer that has room for its [n] bytes. *)
Lemma vsnprintf_inside (b : buffer) (dst : nat) (n : Z) (r : list byte) :
  0 < n -> (dst + Z.to_nat n <= length (cells b))%nat ->
  let kept := take (Z.to_nat (n - 1)) r in
  fst (vsnprintf b dst n r)
  = Buffer (take dst (cells b) ++ kept
            ++ NUL :: drop (dst + length kept + 1) (cells b)) (stray b).
Proof.
  intros Hn Hroom kept. unfold vsnprintf.
  destruct (n <=? 0) eqn:E; [lia|]. cbn [fst]. fold kept.
  assert (Hk : (length kept <= Z.to_nat (n - 1))%nat)
    by (unfold kept; rewrite length_take; lia).
  rewrite store_list_inside by lia.
  rewrite store_inside
    by (cbn [cells]; rewrite !length_app, length_take, length_drop; lia).
  cbn [cells stray]. f_equal.
  assert (Hd : length (take dst (cells b)) = dst)
    by (rewrite length_take; lia).
  rewrite app_assoc.
  rewrite take_app_length' by (rewrite length_app; lia).
  rewrite drop_app_ge by (rewrite length_app; lia).
  rewrite length_app, Hd.
  replace (S (dst + length kept) - (dst + length kept))%nat with 1%nat by lia.
  rewrite drop_drop, <- app_assoc.
  do 4 f_equal; lia.
Qed.

Lemma vsnprintf_ret_size (b : buffer) (dst : nat) (n : Z) (r : list byte) :
  MBTXTLEN <= Z.of_nat (length r) ->
  MBTXTLEN <= to_size_t (snd (vsnprintf b dst n r)).
Proof.
  intros Hr. unfold vsnprintf, to_size_t, SIZE_BITS, MBTXTLEN, INT_MAX in *.
  destruct (n <=? 0); cbn [snd];
    destruct (Z.of_nat (length r) <=? 2147483647) eqn:E;
    try (apply Z.leb_le in E; rewrite Z.mod_small by lia; lia);
    change ((-1) mod 2 ^ 64) with 18446744073709551615; lia.
Qed.

Lemma c_str_prefix (l : list byte) : exists t, l = c_str l ++ t.
Proof.
  induction l as [|c l [t IH]]; [exists []; reflexivity|].
  cbn [c_str]. destruct (Byte.eqb c NUL).
  - exists (c :: l). reflexivity.
  - exists t. cbn [app]. rewrite <- IH. reflexivity.
Qed.

Lemma take_within_string (k : nat) (r : list byte) :
  Z.of_nat k <= strlen r ->
  (k <= length r)%nat /\ Forall (fun c => c <> NUL) (take k r).
Proof.
  unfold strlen. intros Hk.
  destruct (c_str_prefix r) as [t Ht].
  split.
  - pose proof (c_str_length r). lia.
  - rewrite Ht, take_app_le by lia.
    apply Forall_take, c_str_nul_free.
Qed.

(** The rendering step of the two plain dialogs, on a long message. *)
Lemma render_long (junk : nat -> byte) (r : list byte) :
  MBTXTLEN <= Z.of_nat (length r) ->
  fst (vsnprintf (alloca junk MBTXTLEN) 0 MBTXTLEN r)
  = Buffer (take 1023 r ++ [NUL]) [].
Proof.
  intros Hr. unfold MBTXTLEN in *.
  rewrite vsnprintf_inside by (rewrite ?alloca_length; lia).
  rewrite alloca_stray. f_equal.
  change (Z.to_nat (1024 - 1)) with 1023%nat.
  rewrite take_0, length_take.
  rewrite drop_ge by (rewrite alloca_length; lia).
  reflexivity.
Qed.

Lemma mbfatalerror_msg (w : world) (r : list byte) :
  fst (mbfatalerror w r)
  = fst (vsnprintf (alloca (stack_bytes w) MBTXTLEN) 0 MBTXTLEN r).
Proof. unfold mbfatalerror. destruct (vsnprintf _ _ _ _). reflexivity. Qed.

Lemma mbothererror_msg (w : world) (r : list byte) :
  fst (mbothererror w r)
  = fst (vsnprintf (alloca (stack_bytes w) MBTXTLEN) 0 MBTXTLEN r).
Proof. unfold mbothererror. destruct (vsnprintf _ _ _ _). reflexivity. Qed.

Lemma truncated_string (r : list byte) :
  MBTXTLEN <= strlen r ->
  c_str (take 1023 r ++ [NUL]) = take 1023 r
  /\ strlen (take 1023 r ++ [NUL]) = MBTXTLEN - 1.
Proof.
  intros Hr.
  destruct (take_within_string 1023 r) as [Hlen Hfree];
    [unfold MBTXTLEN in Hr; lia|].
  assert (E : c_str (take 1023 r ++ [NUL]) = take 1023 r)
    by (rewrite c_str_stop; apply c_str_id; assumption).
  split; [exact E|].
  unfold strlen. rewrite E, length_take. unfold MBTXTLEN. lia.
Qed.


Lemma mbfatal_perror_as_winerror (w : world) (funcname r : list byte) :
  mbfatal_perror w funcname r = mbfatal_winerror (as_winerror w) funcname r.
Proof. reflexivity. Qed.

Lemma store_terminator (b : buffer) :
  length (cells b) = 1024%nat ->
  store b (Z.to_nat (MBTXTLEN - 1)) NUL
  = Buffer (take 1023 (cells b) ++ [NUL]) (stray b).
Proof.
  intros Hb. change (Z.to_nat (MBTXTLEN - 1)) with 1023%nat.
  rewrite store_inside by lia.
  rewrite (drop_ge (cells b) 1024) by lia. reflexivity.
Qed.

Lemma mbfatal_winerror_long (w : world) (funcname r : list byte) :
  MBTXTLEN <= Z.of_nat (length r) ->
  fst (mbfatal_winerror w funcname r) = Buffer (take 1023 r ++ [NUL]) [].
Proof.
  intros Hr. unfold mbfatal_winerror.
  pose proof (render_long (stack_bytes w) r Hr) as Hmsg.
  pose proof (vsnprintf_ret_size (alloca (stack_bytes w) MBTXTLEN)
                0%nat MBTXTLEN r Hr) as Hret.
  destruct (vsnprintf _ _ _ _) as [msg ret]. cbn [fst snd] in Hmsg, Hret.
  subst msg.
  assert (E : (to_size_t ret <? MBTXTLEN) = false) by (apply Z.ltb_ge; lia).
  rewrite E. cbn iota. rewrite E. cbn iota. rewrite E.
  cbn [fst]. rewrite store_terminator.
  - cbn [cells stray]. rewrite take_app_length'; [reflexivity|].
    rewrite length_take. unfold MBTXTLEN in Hr. lia.
  - cbn [cells]. rewrite length_app, length_take. cbn [length].
    unfold MBTXTLEN in Hr. lia.
Qed.

Lemma mbfatal_winerror_shows (w : world) (funcname r : list byte) :
  snd (mbfatal_winerror w funcname r)
  = show_message_box w (cells (fst (mbfatal_winerror w funcname r)))
      (bytes "Fatal error detected") MB_ICONEXCLAMATION.
Proof.
  unfold mbfatal_winerror.
  destruct (vsnprintf _ _ _ _) as [msg ret].
  destruct (to_size_t ret <? MBTXTLEN); cbn iota;
    match goal with |- context [if ?c then _ else _] => destruct c end;
    cbn iota; reflexivity.
Qed.

Lemma mbfatal_winerror_last_store (w : world) (funcname r : list byte) :
  exists b, length (cells b) = 1024%nat
    /\ fst (mbfatal_winerror w funcname r)
       = store b (Z.to_nat (MBTXTLEN - 1)) NUL.
Proof.
  unfold mbfatal_winerror.
  pose proof (vsnprintf_length (alloca (stack_bytes w) MBTXTLEN)
                0%nat MBTXTLEN r) as Hlen.
  rewrite alloca_length in Hlen. change (Z.to_nat MBTXTLEN) with 1024%nat in Hlen.
  destruct (vsnprintf _ _ _ _) as [msg ret]. cbn [fst] in Hlen.
  destruct (to_size_t ret <? MBTXTLEN); cbn iota;
    match goal with |- context [if ?c then _ else _] => destruct c end;
    cbn iota;
    match goal with |- context [if ?c then _ else _] => destruct c end;
    cbn [fst]; eexists; (split; [|reflexivity]);
    rewrite ?strncpy_length; exact Hlen.
Qed.

Lemma mbfatal_winerror_terminated (w : world) (funcname r : list byte) :
  let msg := fst (mbfatal_winerror w funcname r) in
  length (cells msg) = 1024%nat /\ cells msg !! 1023%nat = Some NUL.
Proof.
  destruct (mbfatal_winerror_last_store w funcname r) as (b & Hb & ->).
  rewrite store_terminator by assumption. cbn [cells].
  split.
  - rewrite length_app, length_take. cbn [length]. lia.
  - rewrite lookup_app_r by (rewrite length_take; lia).
    rewrite length_take.
    replace (1023 - 1023 `min` length (cells b))%nat with 0%nat by lia.
    reflexivity.
Qed.

Lemma render_terminated (junk : nat -> byte) (n : Z) (r : list byte) :
  0 < n ->
  let b := fst (vsnprintf (alloca junk n) 0 n r) in
  length (cells b) = Z.to_nat n /\ stray b = []
  /\ exists k, (k < Z.to_nat n)%nat /\ cells b !! k = Some NUL.
Proof.
  intros Hn b. subst b.
  rewrite vsnprintf_inside by (rewrite ?alloca_length; lia).
  cbn [cells stray]. rewrite take_0. cbn [app].
  set (kept := take (Z.to_nat (n - 1)) r).
  assert (Hk : (length kept <= Z.to_nat (n - 1))%nat)
    by (unfold kept; rewrite length_take; lia).
  split; [|split; [reflexivity|]].
  - rewrite length_app. cbn [length]. rewrite length_drop, alloca_length. lia.
  - exists (length kept). split; [lia|].
    rewrite lookup_app_r by lia.
    replace (length kept - length kept)%nat with 0%nat by lia. reflexivity.
Qed.

(** *** The process-identifier prefix *)

Lemma digit_char_not_nul (d : Z) : digit_char d <> NUL.
Proof.
  unfold digit_char.
  repeat match goal with
         | |- context [match ?x with _ => _ end] => destruct x
         end; discriminate.
Qed.

Lemma utoa_length (fuel : nat) (n : Z) (acc : list byte) :
  (length (utoa fuel n acc) <= fuel + length acc)%nat.
Proof.
  revert n acc. induction fuel as [|fuel IH]; intros n acc; cbn [utoa];
    [lia|].
  destruct (n <? 10).
  - cbn [length]. lia.
  - specialize (IH (n / 10) (digit_char (n mod 10) :: acc)).
    cbn [length] in IH. lia.
Qed.

Lemma utoa_nul_free (fuel : nat) (n : Z) (acc : list byte) :
  Forall (fun c => c <> NUL) acc ->
  Forall (fun c => c <> NUL) (utoa fuel n acc).
Proof.
  revert n acc. induction fuel as [|fuel IH]; intros n acc Hacc; cbn [utoa];
    [assumption|].
  destruct (n <? 10); [|apply IH];
    (constructor; [apply digit_char_not_nul | assumption]).
Qed.

Lemma fmt_d_length (v : Z) : (length (fmt_d v) <= 11)%nat.
Proof.
  unfold fmt_d. destruct (v <? 0); cbn [length].
  - pose proof (utoa_length 10 (- v) []). cbn [length] in *. lia.
  - pose proof (utoa_length 10 v []). cbn [length] in *. lia.
Qed.

Lemma fmt_d_nul_free (v : Z) : Forall (fun c => c <> NUL) (fmt_d v).
Proof.
  unfold fmt_d. destruct (v <? 0).
  - constructor; [discriminate|]. apply utoa_nul_free. constructor.
  - apply utoa_nul_free. constructor.
Qed.

Lemma fmt_pid_length (pid : Z) : (length (fmt_pid pid) <= 14)%nat.
Proof.
  unfold fmt_pid. rewrite !length_app. pose proof (fmt_d_length pid).
  change (length (bytes "[")) with 1%nat.
  change (length (bytes "] ")) with 2%nat. lia.
Qed.

Lemma fmt_pid_nul_free (pid : Z) : Forall (fun c => c <> NUL) (fmt_pid pid).
Proof.
  unfold fmt_pid. repeat apply Forall_app_2.
  - repeat constructor; discriminate.
  - apply fmt_d_nul_free.
  - repeat constructor; discriminate.
Qed.

Lemma mbvs_text (w : world) (r : list byte) :
  let prefix := fmt_pid (getpid w) in
  stray (fst (mbvs w r)) = []
  /\ snd (mbvs w r)
     = [OutputDebugStringA
          (prefix ++ c_str (take (1023 - length prefix) r))].
Proof.
  intros prefix. unfold mbvs. fold prefix. unfold sprintf.
  pose proof (fmt_pid_length (getpid w)) as Hp. fold prefix in Hp.
  pose proof (fmt_pid_nul_free (getpid w)) as Hf. fold prefix in Hf.
  set (msg0 := alloca (stack_bytes w) MBTXTLEN).
  assert (H0 : length (cells msg0) = 1024%nat) by apply alloca_length.
  rewrite store_list_inside by lia.
  rewrite store_inside
    by (cbn [cells]; rewrite !length_app, length_take, length_drop; lia).
  cbn [cells stray]. rewrite take_0. cbn [app].
  rewrite Nat.add_0_l, Nat2Z.id.
  rewrite take_app_length, drop_app_ge by lia.
  set (msg1 := Buffer _ _).
  assert (H1 : length (cells msg1) = 1024%nat).
  { unfold msg1. cbn [cells]. rewrite length_app. cbn [length].
    rewrite !length_drop. lia. }
  assert (Hn : to_size_t (MBTXTLEN - Z.of_nat (length prefix))
               = 1024 - Z.of_nat (length prefix)).
  { unfold to_size_t, SIZE_BITS, MBTXTLEN. apply Z.mod_small. lia. }
  rewrite Hn.
  pose proof (vsnprintf_inside msg1 (length prefix)
                (1024 - Z.of_nat (length prefix)) r) as Hv.
  cbn zeta in Hv. specialize (Hv ltac:(lia) ltac:(lia)).
  destruct (vsnprintf _ _ _ _) as [msg ret]. cbn [fst snd] in *. subst msg.
  cbn [cells stray]. split; [reflexivity|].
  unfold msg1 at 1. cbn [cells]. rewrite take_app_length.
  rewrite c_str_app by assumption. rewrite c_str_stop.
  replace (Z.to_nat (1024 - Z.of_nat (length prefix) - 1)) with (1023 - length prefix)%nat by lia. reflexivity.
Qed.

Lemma mbvs_shows (w : world) (r : list byte) :
  snd (mbvs w r) = [OutputDebugStringA (c_str (cells (fst (mbvs w r))))].
Proof.
  unfold mbvs. destruct (sprintf _ _ _) as [msg1 pid_len].
  destruct (vsnprintf _ _ _ _). reflexivity.
Qed.

Lemma c_str_take (k : nat) (l : list byte) :
  c_str (take k l) = take k (c_str l).
Proof.
  revert k. induction l as [|c l IH]; intros k.
  - cbn [c_str]. rewrite !take_nil. reflexivity.
  - destruct k as [|k]; [reflexivity|].
    cbn [take c_str]. destruct (Byte.eqb c NUL); [reflexivity|].
    cbn [take]. rewrite IH. reflexivity.
Qed.

Lemma strlen_cut (k : nat) (r tail : list byte) :
  strlen (take k r ++ NUL :: tail) = Z.min (strlen r) (Z.of_nat k).
Proof.
  unfold strlen. rewrite c_str_stop, c_str_take, length_take. lia.
Qed.

Lemma mbvs_cells (w : world) (r : list byte) :
  exists tail,
    cells (fst (mbvs w r))
    = fmt_pid (getpid w)
      ++ take (1023 - length (fmt_pid (getpid w))) r ++ NUL :: tail
    /\ length (cells (fst (mbvs w r))) = 1024%nat.
Proof.
  unfold mbvs, sprintf.
  set (prefix := fmt_pid (getpid w)).
  pose proof (fmt_pid_length (getpid w)) as Hp. fold prefix in Hp.
  set (msg0 := alloca (stack_bytes w) MBTXTLEN).
  assert (H0 : length (cells msg0) = 1024%nat) by apply alloca_length.
  set (msg1 := store _ _ _).
  assert (H1 : length (cells msg1) = 1024%nat)
    by (unfold msg1; rewrite store_length, store_list_length; exact H0).
  assert (Hpre : take (length prefix) (cells msg1) = prefix).
  { unfold msg1. rewrite store_list_inside by lia.
    rewrite store_inside
      by (cbn [cells]; rewrite !length_app, length_take, length_drop; lia).
    cbn [cells]. rewrite take_0. cbn [app].
    rewrite Nat.add_0_l, take_app_length.
    rewrite take_app_length. reflexivity. }
  assert (Hn : to_size_t (MBTXTLEN - Z.of_nat (length prefix))
               = 1024 - Z.of_nat (length prefix)).
  { unfold to_size_t, SIZE_BITS, MBTXTLEN. apply Z.mod_small. lia. }
  rewrite Hn, Nat2Z.id.
  pose proof (vsnprintf_inside msg1 (length prefix)
                (1024 - Z.of_nat (length prefix)) r) as Hv.
  cbn zeta in Hv. specialize (Hv ltac:(lia) ltac:(lia)).
  pose proof (vsnprintf_length msg1 (length prefix)
                (1024 - Z.of_nat (length prefix)) r) as Hl.
  destruct (vsnprintf _ _ _ _) as [msg ret]. cbn [fst snd] in *. subst msg.
  cbn [cells] in *. rewrite Hpre in *.
  replace (Z.to_nat (1024 - Z.of_nat (length prefix) - 1))
    with (1023 - length prefix)%nat in * by lia.
  eexists. split; [reflexivity|]. rewrite Hl. exact H1.
Qed.

(** C2, as amended: when a rendering has at least as many bytes as the
    rendering step has room for (1024 in the two plain dialogs, 1024 less
    the prefix in [mbvs]), the buffer holds exactly the first bytes of
    the rendering up to one less than that room, then a NUL in its last
    cell, and nothing is stored outside it.  The string it holds is as
    long as the rendering's own string, at most the room less one: it is
    exactly that long when no NUL is among the bytes kept. *)
Theorem rendering_cut_at_capacity (w : world) (r rv : list byte) :
  MBTXTLEN <= Z.of_nat (length r) ->
  MBTXTLEN - Z.of_nat (length (fmt_pid (getpid w))) <= Z.of_nat (length rv) ->
  (cells (fst (mbfatalerror w r)) = take 1023 r ++ [NUL]
   /\ stray (fst (mbfatalerror w r)) = []
   /\ strlen (cells (fst (mbfatalerror w r)))
      = Z.min (strlen r) (MBTXTLEN - 1))
  /\ (cells (fst (mbothererror w r)) = take 1023 r ++ [NUL]
      /\ stray (fst (mbothererror w r)) = []
      /\ strlen (cells (fst (mbothererror w r)))
         = Z.min (strlen r) (MBTXTLEN - 1))
  /\ (cells (fst (mbvs w rv))
      = fmt_pid (getpid w)
        ++ take (1023 - length (fmt_pid (getpid w))) rv ++ [NUL]
      /\ stray (fst (mbvs w rv)) = []
      /\ strlen (cells (fst (mbvs w rv)))
         = Z.of_nat (length (fmt_pid (getpid w)))
           + Z.min (strlen rv)
                   (MBTXTLEN - 1 - Z.of_nat (length (fmt_pid (getpid w))))).
Proof.
  intros Hr Hrv.
  rewrite mbfatalerror_msg, mbothererror_msg, render_long by assumption.
  cbn [cells stray].
  assert (Hplain : strlen (take 1023 r ++ [NUL])
                   = Z.min (strlen r) (MBTXTLEN - 1))
    by (rewrite strlen_cut; reflexivity).
  do 2 (split; [auto|]).
  pose proof (fmt_pid_length (getpid w)) as Hp.
  pose proof (fmt_pid_nul_free (getpid w)) as Hfree.
  destruct (mbvs_text w rv) as [Hstray _].
  destruct (mbvs_cells w rv) as (tail & Hcells & Hlen).
  set (prefix := fmt_pid (getpid w)) in *.
  assert (Htail : tail = []).
  { rewrite Hcells, !length_app, length_take in Hlen. cbn [length] in Hlen.
    unfold MBTXTLEN in Hrv. destruct tail; [reflexivity|].
    cbn [length] in Hlen. lia. }
  subst tail. split; [exact Hcells|]. split; [exact Hstray|].
  rewrite Hcells. unfold strlen at 1.
  rewrite c_str_app by assumption. rewrite length_app, Nat2Z.inj_add.
  f_equal. change (Z.of_nat (length (c_str (take (1023 - length prefix) rv ++ [NUL]))))
    with (strlen (take (1023 - length prefix) rv ++ [NUL])).
  rewrite strlen_cut. unfold MBTXTLEN. lia.
Qed.

Example debug_line :
  pyi_global_printf windowed_debug sample_world (bytes "LOADER: started")
  = [Stderr (bytes "[4242] "); Stderr (bytes "LOADER: started")]
  /\ snd (mbvs sample_world (bytes "LOADER: started"))
     = [OutputDebugStringA (bytes "[4242] LOADER: started")]
  /\ fmt_d INT_MIN = bytes "-2147483648".
Proof. vm_compute. repeat split. Qed.

(** *** The stderr path *)

Lemma utf8_buffer_string (w : world) (r : list byte) :
  c_str (cells (utf8_buffer w r)) = c_str (take 2047 r).
Proof.
  unfold utf8_buffer.
  rewrite vsnprintf_inside
    by (rewrite ?alloca_length; unfold VPRINTF_TO_STDERR_BUFSIZE, MBTXTLEN; lia).
  cbn [cells]. rewrite take_0. cbn [app]. apply c_str_stop.
Qed.

(** *** Where the annotated emitters store *)

Lemma store_list_stray (l : list byte) (b : buffer) (i : nat) :
  (i + length l <= length (cells b))%nat ->
  stray (store_list b i l) = stray b.
Proof. intros Hi. rewrite store_list_inside by assumption. reflexivity. Qed.

Lemma strncpy_stray (b : buffer) (dst : nat) (src : list byte) (n : Z) :
  (dst + Z.to_nat n <= length (cells b))%nat ->
  stray (strncpy b dst src n) = stray b.
Proof.
  intros Hroom. unfold strncpy. apply store_list_stray.
  rewrite length_take, length_app, length_replicate. lia.
Qed.

Lemma store_stray (b : buffer) (i : nat) (c : byte) :
  (i < length (cells b))%nat -> stray (store b i c) = stray b.
Proof. intros Hi. rewrite store_inside by assumption. reflexivity. Qed.

Lemma separator_stray (b : buffer) (size : Z) :
  length (cells b) = 1024%nat -> 0 <= size < 1024 ->
  stray (strncpy b (Z.to_nat size) (bytes ": ") 2)
  = if size =? 1023 then (1024%nat, x20) :: stray b else stray b.
Proof.
  intros Hb Hs. destruct (size =? 1023) eqn:E.
  - apply Z.eqb_eq in E. subst size.
    unfold strncpy. cbn [store_list c_str bytes take app
                         list_byte_of_string].
    change (Z.to_nat 1023) with 1023%nat.
    change (take (Z.to_nat 2) _) with [x3a; x20].
    cbn [store_list].
    rewrite store_outside by (rewrite store_length; lia).
    cbn [stray]. rewrite store_stray by lia. reflexivity.
  - apply Z.eqb_neq in E. apply strncpy_stray.
    change (Z.to_nat 2) with 2%nat. lia.
Qed.

Lemma mbfatal_winerror_stray (w : world) (funcname r : list byte) :
  strlen funcname < 2 ^ 63 ->
  stray (fst (mbfatal_winerror w funcname r))
  = if Z.of_nat (length r) + strlen funcname =? 1023
    then [(1024%nat, x20)] else [].
Proof.
  intros Hf.
  assert (Hf0 : 0 <= strlen funcname) by (unfold strlen; lia).
  destruct (Z.le_gt_cases MBTXTLEN (Z.of_nat (length r))) as [Hlong | Hshort].
  { rewrite mbfatal_winerror_long by assumption. cbn [stray].
    unfold MBTXTLEN in Hlong.
    destruct (Z.eqb_spec (Z.of_nat (length r) + strlen funcname) 1023);
      [lia | reflexivity]. }
  unfold mbfatal_winerror.
  pose proof (render_terminated (stack_bytes w) MBTXTLEN r eq_refl)
    as (Hlen & Hstray & _).
  change (Z.to_nat MBTXTLEN) with 1024%nat in Hlen.
  assert (Hret : snd (vsnprintf (alloca (stack_bytes w) MBTXTLEN)
                        0%nat MBTXTLEN r) = Z.of_nat (length r)).
  { unfold vsnprintf, MBTXTLEN, INT_MAX in *. cbn [Z.leb Z.compare snd].
    destruct (Z.leb_spec (Z.of_nat (length r)) 2147483647); [reflexivity|lia]. }
  destruct (vsnprintf _ _ _ _) as [msg0 ret]. cbn [fst snd] in *. subst ret.
  unfold MBTXTLEN in *.
  set (L := Z.of_nat (length r)) in *.
  set (F := strlen funcname) in *.
  assert (Hpow : 2 ^ SIZE_BITS = 18446744073709551616) by reflexivity.
  assert (Hpow63 : 2 ^ 63 = 9223372036854775808) by reflexivity.
  assert (HL : to_size_t L = L)
    by (unfold to_size_t; apply Z.mod_small; lia).
  rewrite HL.
  destruct (Z.ltb_spec L 1024) as [_|]; [|lia]. cbn iota.
  assert (H1 : to_size_t (1024 - L - 1) = 1023 - L)
    by (unfold to_size_t; rewrite Z.mod_small; lia).
  assert (H2 : to_size_t (L + F) = L + F)
    by (unfold to_size_t; apply Z.mod_small; lia).
  rewrite H1, H2.
  set (msg1 := strncpy msg0 _ _ _).
  assert (Hlen1 : length (cells msg1) = 1024%nat)
    by (unfold msg1; rewrite strncpy_length; exact Hlen).
  assert (Hstray1 : stray msg1 = []).
  { unfold msg1. rewrite strncpy_stray by lia. exact Hstray. }
  destruct (L + F <? 1024) eqn:E1; cbn iota;
    [apply Z.ltb_lt in E1 as Hfit | apply Z.ltb_ge in E1 as Hfull].
  2:{ rewrite E1. cbn [fst].
      rewrite store_stray by (rewrite Hlen1; cbn; lia).
      rewrite Hstray1.
      destruct (Z.eqb_spec (L + F) 1023); [lia | reflexivity]. }
  set (msg2 := strncpy msg1 _ _ _).
  assert (Hlen2 : length (cells msg2) = 1024%nat)
    by (unfold msg2; rewrite strncpy_length; exact Hlen1).
  assert (Hstray2 : stray msg2
            = if L + F =? 1023 then [(1024%nat, x20)] else []).
  { unfold msg2. rewrite separator_stray by lia. rewrite Hstray1.
    reflexivity. }
  assert (H3 : to_size_t (L + F + 2) = L + F + 2)
    by (unfold to_size_t; apply Z.mod_small; lia).
  rewrite H3.
  destruct (Z.ltb_spec (L + F + 2) 1024) as [Hfit2|Hfull2]; cbn [fst].
  - rewrite store_stray by (rewrite strncpy_length, Hlen2; cbn; lia).
    rewrite strncpy_stray.
    + exact Hstray2.
    + unfold to_size_t. rewrite Z.mod_small by lia. lia.
  - rewrite store_stray by (rewrite Hlen2; cbn; lia). exact Hstray2.
Qed.

(** *** The whole buffer of the annotated emitters *)

Lemma take_padding (s : list byte) (n m : nat) :
  (n <= m)%nat ->
  take n (s ++ replicate m NUL) = take n (s ++ replicate n NUL).
Proof.
  intros Hnm. rewrite !take_app, !take_replicate.
  do 2 f_equal. lia.
Qed.

Lemma padded_app (c s : list byte) :
  (length c <= 1023)%nat ->
  padded (c ++ s)
  = c ++ take (1023 - length c) (s ++ replicate (1023 - length c) NUL).
Proof.
  intros Hc. unfold padded. rewrite <- app_assoc.
  rewrite take_app_ge by lia. f_equal.
  apply take_padding. lia.
Qed.

Lemma padded_full (c s : list byte) :
  (1023 <= length c)%nat -> padded (c ++ s) = padded c.
Proof.
  intros Hc. unfold padded. rewrite <- app_assoc.
  rewrite !take_app_le by lia. reflexivity.
Qed.

Lemma padded_length (c : list byte) : length (padded c) = 1023%nat.
Proof.
  unfold padded. rewrite length_take, length_app, length_replicate. lia.
Qed.

Lemma store_list_cells (l : list byte) (b : buffer) (i : nat) :
  (i <= length (cells b))%nat ->
  cells (store_list b i l)
  = take (length (cells b))
      (take i (cells b) ++ l ++ drop (i + length l) (cells b)).
Proof.
  revert b i. induction l as [|c l IH]; intros b i Hi.
  - cbn [store_list app length]. rewrite Nat.add_0_r, take_drop.
    rewrite take_ge by lia. reflexivity.
  - cbn [store_list length].
    destruct (Nat.lt_ge_cases i (length (cells b))) as [Hin | Hout].
    + rewrite IH by (rewrite store_length; lia).
      rewrite store_length, store_inside by assumption. cbn [cells].
      f_equal.
      assert (Hlen : length (take i (cells b)) = i)
        by (rewrite length_take; lia).
      rewrite (take_app_ge _ _ (S i)) by lia.
      rewrite (drop_app_ge _ _ (S i + length l)) by lia.
      rewrite Hlen.
      replace (S i - i)%nat with 1%nat by lia.
      replace (S i + length l - i)%nat with (S (length l)) by lia.
      cbn [take drop]. rewrite take_0, drop_drop.
      rewrite <- app_assoc. cbn [app].
      do 4 f_equal. lia.
    + assert (i = length (cells b)) by lia. subst i.
      rewrite store_outside by lia.
      assert (Hrest : forall (l' : list byte) (b' : buffer) (j : nat),
                 (length (cells b') <= j)%nat ->
                 cells (store_list b' j l') = cells b').
      { clear. induction l' as [|c' l' IH']; intros b' j Hj; [reflexivity|].
        cbn [store_list]. rewrite IH' by (rewrite store_length; lia).
        rewrite store_outside by assumption. reflexivity. }
      rewrite Hrest by (cbn [cells]; lia). cbn [cells].
      rewrite (take_ge (cells b) (length (cells b))) by lia.
      rewrite take_app_length. reflexivity.
Qed.

Lemma strncpy_append (b : buffer) (c src : list byte) (x : byte) :
  (length c <= 1023)%nat ->
  cells b = padded c ++ [x] \/ (exists rest, cells b = c ++ rest
                                  /\ length (cells b) = 1024%nat
                                  /\ last (cells b) = Some x) ->
  cells (strncpy b (length c) src (1023 - Z.of_nat (length c)))
  = padded (c ++ c_str src) ++ [x].
Proof.
  intros Hc Hcells.
  assert (Hpre : take (length c) (cells b) = c
                 /\ length (cells b) = 1024%nat
                 /\ drop 1023 (cells b) = [x]).
  { destruct Hcells as [Hb | (rest & Hb & Hlen & Hlast)].
    - rewrite Hb. repeat split.
      + rewrite take_app_le by (rewrite padded_length; lia).
        unfold padded. rewrite take_take, take_app_le by lia.
        rewrite Nat.min_l by lia. apply take_ge. lia.
      + rewrite length_app, padded_length. reflexivity.
      + rewrite drop_app_length'; [reflexivity | symmetry; apply padded_length].
    - repeat split; [rewrite Hb; apply take_app_length | assumption |].
      destruct (cells b) as [|y ys] eqn:E using rev_ind; [discriminate|].
      rewrite last_snoc in Hlast. injection Hlast as ->.
      rewrite length_app in Hlen. cbn [length] in Hlen.
      rewrite drop_app_length'; [reflexivity | lia]. }
  destruct Hpre as (Htake & Hlen & Hdrop).
  unfold strncpy.
  set (n := Z.to_nat (1023 - Z.of_nat (length c))).
  assert (Hn : n = (1023 - length c)%nat) by (unfold n; lia).
  rewrite store_list_inside
    by (rewrite length_take, length_app, length_replicate; lia).
  cbn [cells]. rewrite Htake.
  rewrite length_take, length_app, length_replicate.
  replace (length c + n `min` (length (c_str src) + n))%nat
    with 1023%nat by lia.
  rewrite Hdrop, padded_app by assumption.
  rewrite <- Hn, <- app_assoc. reflexivity.
Qed.

Lemma padded_short (c : list byte) :
  (length c <= 1023)%nat ->
  padded c = c ++ replicate (1023 - length c) NUL.
Proof.
  intros Hc. rewrite <- (app_nil_r c) at 1.
  rewrite padded_app by assumption. cbn [app].
  rewrite take_replicate. do 2 f_equal. lia.
Qed.

Lemma separator_append (b : buffer) (c : list byte) (x : byte) :
  (length c <= 1023)%nat ->
  cells b = padded c ++ [x] ->
  exists x', cells (strncpy b (length c) (bytes ": ") 2)
             = padded (c ++ bytes ": ") ++ [x'].
Proof.
  intros Hc Hb. unfold strncpy.
  change (take (Z.to_nat 2) _) with [x3a; x20].
  assert (Hlen : length (cells b) = 1024%nat)
    by (rewrite Hb, length_app, padded_length; reflexivity).
  rewrite store_list_cells by lia.
  rewrite Hlen, Hb, padded_short by assumption.
  rewrite <- app_assoc.
  rewrite take_app_length, drop_app_ge by (cbn [length]; lia).
  cbn [length]. change (bytes ": ") with [x3a; x20].
  destruct (1023 - length c)%nat as [|[|k]] eqn:Hk.
  - (* the separator starts at the last cell *)
    exists x3a. cbn [replicate app].
    rewrite drop_ge by (cbn [length]; lia).
    rewrite padded_full by lia. unfold padded.
    rewrite (take_app_le c (replicate 1023 NUL)) by lia.
    rewrite (take_ge c 1023) by lia.
    replace 1024%nat with (length c + 1)%nat by lia.
    rewrite take_app_add. reflexivity.
  - (* the separator ends at the last cell *)
    exists x20. cbn [replicate app].
    replace (length c + 2 - length c)%nat with 2%nat by lia.
    cbn [drop app].
    rewrite take_ge by (rewrite length_app; cbn [length]; lia).
    rewrite padded_app by lia. rewrite Hk. cbn [take app replicate].
    rewrite <- app_assoc. reflexivity.
  - exists x.
    replace (length c + 2 - length c)%nat with 2%nat by lia.
    cbn [replicate drop app].
    rewrite drop_0.
    rewrite take_ge
      by (rewrite length_app; cbn [length];
          rewrite length_app, length_replicate; cbn [length]; lia).
    rewrite padded_app by lia. rewrite Hk.
    cbn [take app].
    rewrite take_replicate, Nat.min_l by lia.
    rewrite <- !app_assoc. reflexivity.
Qed.

(** The buffer the annotated emitters show is the concatenation of body,
    function name, separator and description, cut at 1023 characters and
    followed by NULs: segments are kept in order and what does not fit is
    cut off. *)
Lemma annotated_buffer (w : world) (funcname r : list byte) :
  strlen funcname < 2 ^ 63 ->
  cells (fst (mbfatal_winerror w funcname r))
  = padded (r ++ c_str funcname ++ bytes ": "
              ++ c_str (GetWinErrorString w (GetLastError w)))
    ++ [NUL].
Proof.
  intros Hf.
  set (desc := GetWinErrorString w (GetLastError w)).
  assert (Hf0 : 0 <= strlen funcname) by (unfold strlen; lia).
  destruct (Z.le_gt_cases MBTXTLEN (Z.of_nat (length r))) as [Hlong | Hshort].
  { rewrite mbfatal_winerror_long by assumption. cbn [cells].
    unfold MBTXTLEN in Hlong.
    rewrite padded_full by lia. unfold padded.
    rewrite take_app_le by lia. reflexivity. }
  unfold mbfatal_winerror. fold desc.
  pose proof (vsnprintf_inside (alloca (stack_bytes w) MBTXTLEN)
                0%nat MBTXTLEN r eq_refl) as Hv.
  rewrite alloca_length in Hv.
  specialize (Hv ltac:(change (Z.to_nat MBTXTLEN) with 1024%nat; lia)).
  cbn zeta in Hv.
  assert (Hret : snd (vsnprintf (alloca (stack_bytes w) MBTXTLEN)
                        0%nat MBTXTLEN r) = Z.of_nat (length r)).
  { unfold vsnprintf, MBTXTLEN, INT_MAX in *. cbn [Z.leb Z.compare snd].
    destruct (Z.leb_spec (Z.of_nat (length r)) 2147483647); [reflexivity|lia]. }
  destruct (vsnprintf _ _ _ _) as [msg0 ret]. cbn [fst snd] in *. subst ret.
  unfold MBTXTLEN in *.
  change (Z.to_nat (1024 - 1)) with 1023%nat in *.
  rewrite (take_ge r) in Hv by lia. rewrite take_0 in Hv. cbn [app] in Hv.
  assert (Hlen0 : length (cells msg0) = 1024%nat).
  { subst msg0. cbn [cells]. rewrite length_app. cbn [length].
    rewrite length_drop, alloca_length.
    change (Z.to_nat 1024) with 1024%nat. lia. }
  assert (Hlast0 : exists x, last (cells msg0) = Some x).
  { destruct (last (cells msg0)) as [x|] eqn:E; [eauto|].
    apply last_None in E. rewrite E in Hlen0. discriminate. }
  destruct Hlast0 as [x0 Hlast0].
  assert (Hcells0 : exists rest, cells msg0 = r ++ rest
                      /\ length (cells msg0) = 1024%nat
                      /\ last (cells msg0) = Some x0).
  { eexists. split; [rewrite Hv; cbn [cells]; reflexivity|]. auto. }
  clear Hv.
  set (L := length r) in *.
  set (name := c_str funcname).
  assert (HF : strlen funcname = Z.of_nat (length name)) by reflexivity.
  rewrite HF in *. set (F := length name) in *.
  assert (Hpow : 2 ^ SIZE_BITS = 18446744073709551616) by reflexivity.
  assert (Hpow63 : 2 ^ 63 = 9223372036854775808) by reflexivity.
  assert (Hsz : forall z, 0 <= z < 2 ^ 64 -> to_size_t z = z)
    by (intros z Hz; unfold to_size_t; apply Z.mod_small; exact Hz).
  change (2 ^ 64) with 18446744073709551616 in Hsz.
  rewrite !Hsz by lia.
  destruct (Z.ltb_spec (Z.of_nat L) 1024) as [_|]; [|lia]. cbn iota.
  rewrite Nat2Z.id.
  replace (1024 - Z.of_nat L - 1) with (1023 - Z.of_nat L) by lia.
  pose proof (strncpy_append msg0 r funcname x0 ltac:(lia) (or_intror Hcells0))
    as H1.
  fold L name in H1.
  set (msg1 := strncpy msg0 L funcname _) in *.
  destruct (Z.of_nat L + Z.of_nat F <? 1024) eqn:E1; cbn iota;
    [apply Z.ltb_lt in E1 as Hfit | apply Z.ltb_ge in E1 as Hfull].
  2:{ rewrite E1. cbn [fst].
      rewrite store_terminator
        by (rewrite H1, length_app, padded_length; reflexivity).
      cbn [cells]. rewrite H1.
      rewrite take_app_length' by (symmetry; apply padded_length).
      rewrite (app_assoc r name), (padded_full (r ++ name)); [reflexivity|].
      rewrite length_app. fold L F. lia. }
  assert (Hc1 : length (r ++ name) = (L + F)%nat) by apply length_app.
  replace (Z.to_nat (Z.of_nat L + Z.of_nat F)) with (length (r ++ name))
    by lia.
  destruct (separator_append msg1 (r ++ name) x0 ltac:(lia) H1) as [x2 H2].
  set (msg2 := strncpy msg1 _ _ _) in *.
  rewrite !Hsz by lia.
  set (c2 := (r ++ name) ++ bytes ": ") in *.
  assert (Hc2 : length c2 = (L + F + 2)%nat)
    by (unfold c2; rewrite length_app, Hc1; reflexivity).
  assert (Hfinal : r ++ name ++ bytes ": " ++ c_str desc = c2 ++ c_str desc)
    by (unfold c2; rewrite <- !app_assoc; reflexivity).
  rewrite Hfinal.
  destruct (Z.ltb_spec (Z.of_nat L + Z.of_nat F + 2) 1024) as [Hfit2|Hfull2];
    cbn [fst].
  - replace (Z.to_nat (Z.of_nat L + Z.of_nat F + 2)) with (length c2) by lia.
    replace (1024 - (Z.of_nat L + Z.of_nat F + 2) - 1)
      with (1023 - Z.of_nat (length c2)) by lia.
    pose proof (strncpy_append msg2 c2 desc x2 ltac:(lia) (or_introl H2))
      as H3.
    rewrite Hsz by lia.
    rewrite store_terminator
      by (rewrite H3, length_app, padded_length; reflexivity).
    cbn [cells]. rewrite H3.
    rewrite take_app_length' by (symmetry; apply padded_length).
    reflexivity.
  - rewrite store_terminator
      by (rewrite H2, length_app, padded_length; reflexivity).
    cbn [cells]. rewrite H2.
    rewrite take_app_length' by (symmetry; apply padded_length).
    rewrite (padded_full c2) by lia. reflexivity.
Qed.




Example annotated_short :
  mbfatal_winerror sample_world (bytes "LoadLibrary") (bytes "Failed to load: ")
  = (Buffer (padded (bytes "Failed to load: LoadLibrary: Access is denied.")
             ++ [NUL]) [],
     [MessageBoxW
        (map (fun c => Z.of_N (Byte.to_N c))
             (bytes "Failed to load: LoadLibrary: Access is denied."))
        (map (fun c => Z.of_N (Byte.to_N c)) (bytes "Fatal error detected"))
        MB_ICONEXCLAMATION]).
Proof. vm_compute. reflexivity. Qed.

Example annotated_cut_in_separator :
  c_str (cells (fst (mbfatal_perror sample_world (bytes "fopen")
                       (letters 1017))))
  = letters 1017 ++ bytes "fopen:".
Proof. vm_compute. reflexivity. Qed.

(** *** The dialog *)

Lemma c_str_split (l : list byte) :
  terminated l = true -> exists tail, l = c_str l ++ NUL :: tail.
Proof.
  unfold terminated.
  induction l as [|c l IH]; cbn [existsb c_str]; [discriminate|].
  destruct (Byte.eqb c NUL) eqn:E; cbn [orb].
  - intros _. apply Byte.byte_dec_bl in E. subst c. exists l. reflexivity.
  - intros Hl. destruct (IH Hl) as [tail Ht]. exists tail.
    cbn [app]. rewrite <- Ht. reflexivity.
Qed.

Lemma show_message_box_fallback (w : world) (msg caption : list byte)
  (uType : Z) :
  message_converts w msg = false ->
  show_message_box w msg caption uType
  = [MessageBoxA (c_str msg) (c_str caption) (Z.lor MB_OK uType)].
Proof.
  unfold message_converts, show_message_box. intros Hfail.
  destruct (pyi_win32_utils_from_utf8 w (wmsg_initial w) (c_str msg) MBTXTLEN)
    as [wmsg ok].
  cbn [snd] in Hfail. subst ok. reflexivity.
Qed.

Lemma show_message_box_wide (w : world) (msg caption : list byte)
  (uType : Z) :
  message_converts w msg = true ->
  show_message_box w msg caption uType
  = [MessageBoxW
       (w_str (fst (pyi_win32_utils_from_utf8 w (wmsg_initial w)
                      (c_str msg) MBTXTLEN)))
       (w_str (fst (pyi_win32_utils_from_utf8 w wcaption_initial
                      (c_str caption) MBTXTLEN)))
       (Z.lor MB_OK uType)].
Proof.
  unfold message_converts, show_message_box. intros Hok.
  destruct (pyi_win32_utils_from_utf8 w (wmsg_initial w) (c_str msg) MBTXTLEN)
    as [wmsg ok].
  cbn [snd] in Hok. subst ok.
  destruct (pyi_win32_utils_from_utf8 w wcaption_initial (c_str caption)
              MBTXTLEN) as [wcaption ok'].
  reflexivity.
Qed.


Lemma show_message_box_narrow (w : world) (msg caption : list byte)
  (uType : Z) (limit : nat) :
  (length (c_str msg) <= limit)%nat ->
  Forall (narrow_text_within limit) (show_message_box w msg caption uType).
Proof.
  intros Hlen.
  destruct (message_converts w msg) eqn:E.
  - rewrite show_message_box_wide by assumption.
    repeat constructor.
  - rewrite show_message_box_fallback by assumption.
    repeat constructor. exact Hlen.
Qed.

(** C7, as amended: when the message does not convert, exactly one ANSI
    dialog is shown, whose text is the raw bytes of the terminated
    message buffer, with the caller's caption and type unchanged; the
    message is not dropped, and nothing else is added to it. *)
Theorem raw_fallback (w : world) (msg caption : list byte) (uType : Z) :
  terminated msg = true ->
  message_converts w msg = false ->
  show_message_box w msg caption uType
  = [MessageBoxA (c_str msg) (c_str caption) (Z.lor MB_OK uType)]
  /\ exists tail, msg = c_str msg ++ NUL :: tail.
Proof.
  intros Hterm Hfail. split.
  - apply show_message_box_fallback. assumption.
  - apply c_str_split. assumption.
Qed.


(** C8: [vprintf_to_stderr] always performs exactly one write to stderr.
    On Windows it writes the re-encoded text when the conversion
    succeeds and otherwise the raw rendered string (the rendering as held
    by the 2048-byte buffer); elsewhere it writes the rendering itself.
    It has no result through which a failure could be reported. *)
Theorem stderr_always_written (cfg : config) (w : world) (r : list byte) :
  vprintf_to_stderr cfg w r
  = [Stderr
       (if _WIN32 cfg then
          let raw := c_str (take 2047 r) in
          let '(mbcs, ok) :=
            pyi_win32_utf8_to_mbs w (cells (mbcs_buffer w)) raw
                                  VPRINTF_TO_STDERR_BUFSIZE in
          if ok then c_str mbcs else raw
        else r)].
Proof.
  unfold vprintf_to_stderr. destruct (_WIN32 cfg); [|reflexivity].
  rewrite utf8_buffer_string. cbn zeta.
  destruct (pyi_win32_utf8_to_mbs _ _ _ _) as [mbcs [|]]; reflexivity.
Qed.


(** *** Capacities *)

Lemma c_str_bound (l : list byte) (k : nat) :
  l !! k = Some NUL -> terminated l = true /\ strlen l <= Z.of_nat k.
Proof.
  intros Hk. split; [eapply terminated_lookup; eassumption|].
  unfold strlen. pose proof (c_str_before_nul l k Hk). lia.
Qed.

Lemma render_bounded (junk : nat -> byte) (n : Z) (r : list byte) :
  0 < n ->
  let b := fst (vsnprintf (alloca junk n) 0 n r) in
  length (cells b) = Z.to_nat n /\ terminated (cells b) = true
  /\ strlen (cells b) <= n - 1.
Proof.
  intros Hn b.
  destruct (render_terminated junk n r Hn) as (Hlen & _ & k & Hk & Hnul).
  fold b in Hlen, Hnul.
  destruct (c_str_bound _ _ Hnul) as [Ht Hs].
  repeat split; [assumption | assumption | lia].
Qed.

Lemma mbfatal_winerror_bounded (w : world) (funcname r : list byte) :
  let msg := fst (mbfatal_winerror w funcname r) in
  length (cells msg) = 1024%nat /\ terminated (cells msg) = true
  /\ strlen (cells msg) <= 1023.
Proof.
  destruct (mbfatal_winerror_terminated w funcname r) as [Hlen Hnul].
  destruct (c_str_bound _ _ Hnul) as [Ht Hs].
  cbn zeta. repeat split; [assumption | assumption | lia].
Qed.

Lemma mbfatalerror_shows (w : world) (r : list byte) :
  snd (mbfatalerror w r)
  = show_message_box w (cells (fst (mbfatalerror w r)))
      (bytes "Fatal error detected") MB_ICONEXCLAMATION.
Proof. unfold mbfatalerror. destruct (vsnprintf _ _ _ _). reflexivity. Qed.

Lemma mbothererror_shows (w : world) (r : list byte) :
  snd (mbothererror w r)
  = show_message_box w (cells (fst (mbothererror w r)))
      (bytes "Error detected") MB_ICONWARNING.
Proof. unfold mbothererror. destruct (vsnprintf _ _ _ _). reflexivity. Qed.

(** C10: [MBTXTLEN] is 1024 and the stderr buffers have twice that, 2048.
    For every input, the [msg] buffer of each of the four dialog emitters
    has 1024 cells and holds a string that ends inside it, so at most
    1023 characters long, and every ANSI dialog text is at most 1023
    characters; the rendering buffer of the stderr path has 2048 cells
    and holds at most 2047 characters.  The wide buffers of the dialog
    have 1024 wide characters each. *)
Theorem fixed_capacities :
  MBTXTLEN = 1024 /\ VPRINTF_TO_STDERR_BUFSIZE = 2 * MBTXTLEN
  /\ VPRINTF_TO_STDERR_BUFSIZE = 2048
  /\ forall (w : world) (funcname r : list byte),
      Forall (fun e : buffer * list event =>
                within_capacity (fst e)
                /\ Forall (narrow_text_within 1023) (snd e))
        [mbfatalerror w r; mbothererror w r;
         mbfatal_winerror w funcname r; mbfatal_perror w funcname r]
      /\ length (cells (utf8_buffer w r)) = 2048%nat
      /\ terminated (cells (utf8_buffer w r)) = true
      /\ strlen (cells (utf8_buffer w r)) <= 2047
      /\ length (cells (mbcs_buffer w)) = 2048%nat
      /\ length (wmsg_initial w) = 1024%nat
      /\ length wcaption_initial = 1024%nat.
Proof.
  do 3 (split; [reflexivity|]). intros w funcname r.
  assert (Hplain : within_capacity
            (fst (vsnprintf (alloca (stack_bytes w) MBTXTLEN) 0 MBTXTLEN r)))
    by (apply (render_bounded (stack_bytes w) MBTXTLEN r); reflexivity).
  assert (Hwin : forall w', within_capacity (fst (mbfatal_winerror w' funcname r)))
    by (intros w'; apply mbfatal_winerror_bounded).
  assert (Hshow : forall (msg : buffer) caption icon,
             within_capacity msg ->
             Forall (narrow_text_within 1023)
                    (show_message_box w (cells msg) caption icon)).
  { intros msg caption icon (_ & _ & Hs). apply show_message_box_narrow.
    unfold strlen in Hs. lia. }
  split; [|split; [|split; [|split; [|split; [|split]]]]].
  - repeat (constructor; [split|]); cbn [fst snd].
    + rewrite mbfatalerror_msg. exact Hplain.
    + rewrite mbfatalerror_shows. apply Hshow.
      rewrite mbfatalerror_msg. exact Hplain.
    + rewrite mbothererror_msg. exact Hplain.
    + rewrite mbothererror_shows. apply Hshow.
      rewrite mbothererror_msg. exact Hplain.
    + apply Hwin.
    + rewrite mbfatal_winerror_shows. apply Hshow, Hwin.
    + rewrite mbfatal_perror_as_winerror. apply Hwin.
    + rewrite mbfatal_perror_as_winerror, mbfatal_winerror_shows.
      apply (Hshow _ _ _ (Hwin (as_winerror w))).
    + constructor.
  - apply (render_bounded (stack_bytes w) VPRINTF_TO_STDERR_BUFSIZE r).
    reflexivity.
  - apply (render_bounded (stack_bytes w) VPRINTF_TO_STDERR_BUFSIZE r).
    reflexivity.
  - apply (render_bounded (stack_bytes w) VPRINTF_TO_STDERR_BUFSIZE r).
    reflexivity.
  - apply alloca_length.
  - unfold wmsg_initial. rewrite length_map, length_seq. reflexivity.
  - apply length_replicate.
Qed.

(** *** The numeral printed for the process identifier *)
















(** C1: the capacity guard of the separator does not keep it inside the
    buffer.  With a body of 1005 characters and an 18-character function
    name the size reaches 1023, the test [size < MBTXTLEN] passes, and the
    two-byte copy of the separator stores its second byte, a space, at
    index 1024, one past the last cell.  Both annotated emitters do so,
    in every world. *)
Theorem separator_overruns_by_one (w : world) :
  stray (fst (mbfatal_winerror w (bytes "GetModuleFileNameW") (letters 1005)))
  = [(1024%nat, x20)]
  /\ stray (fst (mbfatal_perror w (bytes "GetModuleFileNameW") (letters 1005)))
     = [(1024%nat, x20)].
Proof.
  rewrite mbfatal_perror_as_winerror.
  rewrite !mbfatal_winerror_stray by (vm_compute; reflexivity).
  split; reflexivity.
Qed.

(** C5: when the body alone renders to 1024 characters or more (2000,
    say), the buffer the annotated emitters show is the first 1023
    characters of the body and a NUL; the function name, the separator
    and the error description leave no trace in it, and nothing is stored
    outside it. *)
Theorem long_body_drops_annotations (w : world) (funcname r : list byte) :
  MBTXTLEN <= Z.of_nat (length r) ->
  mbfatal_winerror w funcname r
  = (Buffer (take 1023 r ++ [NUL]) [],
     show_message_box w (take 1023 r ++ [NUL])
       (bytes "Fatal error detected") MB_ICONEXCLAMATION)
  /\ mbfatal_perror w funcname r
     = (Buffer (take 1023 r ++ [NUL]) [],
        show_message_box w (take 1023 r ++ [NUL])
          (bytes "Fatal error detected") MB_ICONEXCLAMATION).
Proof.
  intros Hr.
  assert (Hwin : forall w', mbfatal_winerror w' funcname r
            = (Buffer (take 1023 r ++ [NUL]) [],
               show_message_box w' (take 1023 r ++ [NUL])
                 (bytes "Fatal error detected") MB_ICONEXCLAMATION)).
  { intros w'.
    rewrite (surjective_pairing (mbfatal_winerror w' funcname r)).
    rewrite mbfatal_winerror_shows.
    rewrite mbfatal_winerror_long by assumption. reflexivity. }
  split; [apply Hwin|].
  rewrite mbfatal_perror_as_winerror, Hwin. reflexivity.
Qed.

Lemma long_body_drops_annotations_witness :
  MBTXTLEN <= Z.of_nat (length (letters 2000))
  /\ mbfatal_winerror sample_world (bytes "LoadLibrary") (letters 2000)
     = (Buffer (take 1023 (letters 2000) ++ [NUL]) [],
        show_message_box sample_world (take 1023 (letters 2000) ++ [NUL])
          (bytes "Fatal error detected") MB_ICONEXCLAMATION).
Proof.
  assert (Hlong : MBTXTLEN <= Z.of_nat (length (letters 2000)))
    by (vm_compute; discriminate).
  exact (conj Hlong
           (proj1 (long_body_drops_annotations sample_world
                     (bytes "LoadLibrary") (letters 2000) Hlong))).
Defined.

Lemma rendering_cut_at_capacity_witness :
  MBTXTLEN <= Z.of_nat (length (letters 2000))
  /\ MBTXTLEN - Z.of_nat (length (fmt_pid (getpid sample_world)))
     <= Z.of_nat (length (letters 1017))
  /\ cells (fst (mbfatalerror sample_world (letters 2000)))
     = take 1023 (letters 2000) ++ [NUL].
Proof.
  assert (H1 : MBTXTLEN <= Z.of_nat (length (letters 2000)))
    by (vm_compute; discriminate).
  assert (H2 : MBTXTLEN - Z.of_nat (length (fmt_pid (getpid sample_world)))
               <= Z.of_nat (length (letters 1017)))
    by (vm_compute; discriminate).
  exact (conj H1 (conj H2
           (proj1 (proj1 (rendering_cut_at_capacity sample_world
                            (letters 2000) (letters 1017) H1 H2))))).
Defined.

(** C2, as stated, fails: a rendering of 1501 bytes with a NUL at
    position 500 is longer than the buffer, yet the string left in the
    buffer is 500 long, not 1023. *)
Lemma embedded_nul_shortens :
  MBTXTLEN <= Z.of_nat (length interrupted)
  /\ strlen (cells (fst (mbfatalerror sample_world interrupted))) = 500
  /\ strlen (cells (fst (mbfatalerror sample_world interrupted)))
     <> MBTXTLEN - 1.
Proof.
  assert (Hs : strlen (cells (fst (mbfatalerror sample_world interrupted)))
               = 500) by (vm_compute; reflexivity).
  split; [vm_compute; discriminate|]. split; [exact Hs|].
  rewrite Hs. vm_compute. discriminate.
Qed.


(** C7, as stated, fails: on a message that does not convert, the trace
    is the bare ANSI dialog of the caller's text, caption and type; it
    carries no indication that the text may be unreadable. *)
Lemma fallback_adds_no_note :
  message_converts sample_world garbled = false
  /\ ~ carries_note garbled (bytes "Error detected") MB_ICONWARNING
        (show_message_box sample_world garbled (bytes "Error detected")
                          MB_ICONWARNING).
Proof.
  split; [reflexivity|].
  unfold carries_note. intros Hnote. apply Hnote. reflexivity.
Qed.

Lemma raw_fallback_witness :
  terminated garbled = true
  /\ message_converts sample_world garbled = false
  /\ show_message_box sample_world garbled (bytes "Error detected")
       MB_ICONWARNING
     = [MessageBoxA (c_str garbled) (c_str (bytes "Error detected"))
          (Z.lor MB_OK MB_ICONWARNING)].
Proof.
  split; [reflexivity|]. split; [reflexivity|].
  apply (raw_fallback sample_world garbled (bytes "Error detected")
           MB_ICONWARNING); reflexivity.
Defined.



End GlobalFacts.

(* ====================================================================== *)
(** ** Further laws of the endianness layer                               *)
(* ====================================================================== *)

Module EndianLaws.
Import Endian EndianFacts.

Lemma is_byte_check (bs : list Z) :
  forallb (fun b => (0 <=? b) && (b <? 256)) bs = true -> Forall is_byte bs.
Proof.
  induction bs as [|b bs IH]; cbn [forallb]; intros Hbs; constructor.
  - unfold is_byte. lia.
  - apply IH. apply andb_true_iff in Hbs. tauto.
Qed.

(** X1: a wire sequence of two, four or eight bytes, loaded as a host
    integer and passed through the macro of its width, gives the number
    the sequence denotes in big-endian order, on every supported target
    of either byte order. *)
Theorem wire_decoding (t : target) (bs2 bs4 bs8 : list Z) :
  supported t = true -> tgt_order t <> PdpEndian ->
  Forall is_byte bs2 -> length bs2 = 2%nat ->
  Forall is_byte bs4 -> length bs4 = 4%nat ->
  Forall is_byte bs8 -> length bs8 = 8%nat ->
  wire_to_host pyi_be16toh t bs2 = Some (be_combine bs2)
  /\ wire_to_host pyi_be32toh t bs4 = Some (be_combine bs4)
  /\ wire_to_host pyi_be64toh t bs8 = Some (be_combine bs8).
Proof.
  intros Hsup Hord H2 L2 H4 L4 H8 L8.
  destruct (wire_to_host_big_endian t bs2 Hsup Hord H2) as (E2 & _ & _).
  destruct (wire_to_host_big_endian t bs4 Hsup Hord H4) as (_ & E4 & _).
  destruct (wire_to_host_big_endian t bs8 Hsup Hord H8) as (_ & _ & E8).
  auto.
Qed.

Lemma wire_decoding_witness :
  supported (Target FreeBSD LittleEndian) = true
  /\ tgt_order (Target FreeBSD LittleEndian) <> PdpEndian
  /\ wire_to_host pyi_be16toh (Target FreeBSD LittleEndian) [18; 52]
     = Some (be_combine [18; 52])
  /\ wire_to_host pyi_be32toh (Target FreeBSD LittleEndian) [222; 173; 190; 239]
     = Some (be_combine [222; 173; 190; 239])
  /\ wire_to_host pyi_be64toh (Target FreeBSD LittleEndian)
       [0; 0; 0; 1; 0; 0; 0; 255]
     = Some (be_combine [0; 0; 0; 1; 0; 0; 0; 255]).
Proof.
  assert (Hsup : supported (Target FreeBSD LittleEndian) = true)
    by reflexivity.
  assert (Hord : tgt_order (Target FreeBSD LittleEndian) <> PdpEndian)
    by (simpl; discriminate).
  pose proof is_byte_check as Hb.
  exact (conj Hsup (conj Hord
           (wire_decoding (Target FreeBSD LittleEndian)
              [18; 52] [222; 173; 190; 239] [0; 0; 0; 1; 0; 0; 0; 255]
              Hsup Hord
              (Hb [18; 52] eq_refl) eq_refl
              (Hb [222; 173; 190; 239] eq_refl) eq_refl
              (Hb [0; 0; 0; 1; 0; 0; 0; 255] eq_refl) eq_refl))).
Defined.

Lemma big_to_host_involutive (swap : Z -> Z) (w : nat) (o : byte_order)
  (x : Z) :
  (forall y, swap y = reverse_bytes w y) ->
  0 <= x < 256 ^ Z.of_nat w ->
  big_to_host swap o (big_to_host swap o x) = x
  /\ 0 <= big_to_host swap o x < 256 ^ Z.of_nat w.
Proof.
  intros Hswap Hx. destruct o; cbn [big_to_host]; auto.
  rewrite !Hswap. split.
  - apply reverse_bytes_involutive. assumption.
  - apply reverse_bytes_range.
Qed.

(** X2: on every supported target each macro is its own inverse on the
    values of its width, and keeps them within that width: converting a
    converted value gives the value back. *)
Theorem conversion_involutive (t : target) (x16 x32 x64 : Z) :
  supported t = true -> tgt_order t <> PdpEndian ->
  0 <= x16 < 2 ^ 16 -> 0 <= x32 < 2 ^ 32 -> 0 <= x64 < 2 ^ 64 ->
  (exists y, expand (pyi_be16toh t) x16 = Some y
             /\ expand (pyi_be16toh t) y = Some x16 /\ 0 <= y < 2 ^ 16)
  /\ (exists y, expand (pyi_be32toh t) x32 = Some y
                /\ expand (pyi_be32toh t) y = Some x32 /\ 0 <= y < 2 ^ 32)
  /\ (exists y, expand (pyi_be64toh t) x64 = Some y
                /\ expand (pyi_be64toh t) y = Some x64 /\ 0 <= y < 2 ^ 64).
Proof.
  intros Hsup Hord H16 H32 H64.
  pose proof (macros_expand t) as Hm.
  destruct (big_to_host_involutive bswap16 2 (tgt_order t) x16
              bswap16_reverse H16) as [I16 R16].
  destruct (big_to_host_involutive bswap32 4 (tgt_order t) x32
              bswap32_reverse H32) as [I32 R32].
  destruct (big_to_host_involutive bswap64 8 (tgt_order t) x64
              bswap64_reverse H64) as [I64 R64].
  repeat split; eexists;
    (split; [apply (Hm _ Hsup Hord) |]);
    (split; [|eassumption]);
    match goal with
    | |- expand ?m ?y = _ =>
        destruct (Hm y Hsup Hord) as (E16 & E32 & E64)
    end;
    rewrite ?E16, ?E32, ?E64; f_equal; assumption.
Qed.

Lemma conversion_involutive_witness :
  supported (Target (Win32 GNUC) LittleEndian) = true
  /\ tgt_order (Target (Win32 GNUC) LittleEndian) <> PdpEndian
  /\ 0 <= 4660 < 2 ^ 16
  /\ (exists y, expand (pyi_be16toh (Target (Win32 GNUC) LittleEndian)) 4660
                = Some y
                /\ expand (pyi_be16toh (Target (Win32 GNUC) LittleEndian)) y
                   = Some 4660
                /\ 0 <= y < 2 ^ 16).
Proof.
  assert (Hsup : supported (Target (Win32 GNUC) LittleEndian) = true)
    by reflexivity.
  assert (Hord : tgt_order (Target (Win32 GNUC) LittleEndian) <> PdpEndian)
    by (simpl; discriminate).
  assert (H16 : 0 <= 4660 < 2 ^ 16) by (simpl; lia).
  assert (H32 : 0 <= 4660 < 2 ^ 32) by (simpl; lia).
  assert (H64 : 0 <= 4660 < 2 ^ 64) by (simpl; lia).
  exact (conj Hsup (conj Hord (conj H16
           (proj1 (conversion_involutive (Target (Win32 GNUC) LittleEndian)
                     4660 4660 4660 Hsup Hord H16 H32 H64))))).
Defined.

(** X3: the three macros are bound together or not at all, and the header
    refuses exactly three kinds of target: an unknown platform, Windows
    with a byte order that is neither little nor big, and little-endian
    Windows with an unknown compiler. *)
Theorem unsupported_targets (t : target) :
  (is_built (pyi_be16toh t) = supported t
   /\ is_built (pyi_be32toh t) = supported t
   /\ is_built (pyi_be64toh t) = supported t)
  /\ (supported t = false <->
      tgt_platform t = OtherPlatform
      \/ (exists cc, tgt_platform t = Win32 cc
                     /\ (tgt_order t = PdpEndian
                         \/ (tgt_order t = LittleEndian
                             /\ cc = OtherCompiler)))).
Proof.
  split.
  - each_target t; repeat split.
  - split.
    + intros Hno. each_target t; cbn in Hno; try discriminate;
        cbn [tgt_platform tgt_order]; eauto 8.
    + intros [Hp | (cc & Hp & [Ho | [Ho Hc]])];
        destruct t as [p o]; cbn [tgt_platform tgt_order] in *; subst;
        reflexivity.
Qed.

End EndianLaws.

(* ====================================================================== *)
(** ** Further laws of the emitters                                       *)
(* ====================================================================== *)

Module EmitterLaws.
Import Global Sample GlobalFacts.

Lemma nul_free_check (s : list byte) :
  forallb (fun c => negb (Byte.eqb c NUL)) s = true ->
  Forall (fun c => c <> NUL) s.
Proof.
  induction s as [|c s IH]; cbn [forallb]; intros Hs; constructor.
  - apply eqb_NUL. destruct (Byte.eqb c NUL); [discriminate|reflexivity].
  - apply IH. apply andb_true_iff in Hs. tauto.
Qed.

(** X4: in both annotated emitters the only store that can fall outside
    [msg] is the second byte of the separator, and it does so exactly
    when the body and the function name together are 1023 characters
    long; for every other input nothing is stored outside the buffer. *)
Theorem overrun_exactly_at_1023 (w : world) (funcname r : list byte) :
  strlen funcname < 2 ^ 63 ->
  stray (fst (mbfatal_winerror w funcname r))
  = (if Z.of_nat (length r) + strlen funcname =? 1023
     then [(1024%nat, x20)] else [])
  /\ stray (fst (mbfatal_perror w funcname r))
     = (if Z.of_nat (length r) + strlen funcname =? 1023
        then [(1024%nat, x20)] else []).
Proof.
  intros Hf. split.
  - apply mbfatal_winerror_stray. assumption.
  - rewrite mbfatal_perror_as_winerror.
    apply mbfatal_winerror_stray. assumption.
Qed.

Lemma overrun_exactly_at_1023_witness :
  strlen (bytes "CreateFileW") < 2 ^ 63
  /\ stray (fst (mbfatal_winerror sample_world (bytes "CreateFileW")
                   (letters 300)))
     = (if Z.of_nat (length (letters 300)) + strlen (bytes "CreateFileW")
           =? 1023
        then [(1024%nat, x20)] else []).
Proof.
  assert (Hf : strlen (bytes "CreateFileW") < 2 ^ 63)
    by (vm_compute; reflexivity).
  exact (conj Hf
           (proj1 (overrun_exactly_at_1023 sample_world (bytes "CreateFileW")
                     (letters 300) Hf))).
Defined.

(** X5: whatever the stack held, the buffer an annotated emitter shows is
    fully determined: its first 1023 cells are the body, the function
    name, the separator and the error description in this order, cut at
    1023 and filled up with NULs, and its last cell is NUL. *)
Theorem annotated_buffer_contents (w : world) (funcname r : list byte) :
  strlen funcname < 2 ^ 63 ->
  cells (fst (mbfatal_winerror w funcname r))
  = padded (r ++ c_str funcname ++ bytes ": "
              ++ c_str (GetWinErrorString w (GetLastError w)))
    ++ [NUL]
  /\ cells (fst (mbfatal_perror w funcname r))
     = padded (r ++ c_str funcname ++ bytes ": "
                 ++ c_str (strerror w (errno w)))
       ++ [NUL].
Proof.
  intros Hf. split.
  - apply annotated_buffer. assumption.
  - rewrite mbfatal_perror_as_winerror.
    apply (annotated_buffer (as_winerror w)). assumption.
Qed.

Lemma annotated_buffer_contents_witness :
  strlen (bytes "fopen") < 2 ^ 63
  /\ cells (fst (mbfatal_perror sample_world (bytes "fopen")
                   (bytes "Cannot open archive: ")))
     = padded (bytes "Cannot open archive: " ++ c_str (bytes "fopen")
               ++ bytes ": "
               ++ c_str (strerror sample_world (errno sample_world)))
       ++ [NUL].
Proof.
  assert (Hf : strlen (bytes "fopen") < 2 ^ 63) by (vm_compute; reflexivity).
  exact (conj Hf
           (proj2 (annotated_buffer_contents sample_world (bytes "fopen")
                     (bytes "Cannot open archive: ") Hf))).
Defined.



Lemma c_str_short_terminated (l : list byte) :
  (length (c_str l) < length l)%nat -> terminated l = true.
Proof.
  unfold terminated.
  induction l as [|c l IH]; cbn [c_str length existsb]; [lia|].
  destruct (Byte.eqb c NUL); cbn [orb length]; [reflexivity|].
  intros Hl. apply IH. lia.
Qed.

Lemma mbvs_length (w : world) (r : list byte) :
  length (cells (fst (mbvs w r))) = 1024%nat.
Proof.
  unfold mbvs, sprintf.
  destruct (vsnprintf _ _ _ _) as [msg ret] eqn:E.
  cbn [fst].
  replace msg with (fst (vsnprintf
    (store (store_list (alloca (stack_bytes w) MBTXTLEN) 0
              (fmt_pid (getpid w)))
           (0 + length (fmt_pid (getpid w))) NUL)
    (Z.to_nat (Z.of_nat (length (fmt_pid (getpid w)))))
    (to_size_t (MBTXTLEN - Z.of_nat (length (fmt_pid (getpid w))))) r))
    by (rewrite E; reflexivity).
  rewrite vsnprintf_length, store_length, store_list_length.
  apply alloca_length.
Qed.

(** X7: [mbvs] is safe for every process identifier and every message:
    the unbounded [sprintf] of the prefix and the rendering after it
    never store outside [msg], the buffer ends up terminated, and the
    debugger receives the prefix followed by the message cut to what is
    left of 1023 characters. *)
Theorem mbvs_always_safe (w : world) (r : list byte) :
  stray (fst (mbvs w r)) = []
  /\ length (cells (fst (mbvs w r))) = 1024%nat
  /\ terminated (cells (fst (mbvs w r))) = true
  /\ strlen (cells (fst (mbvs w r))) <= 1023
  /\ snd (mbvs w r)
     = [OutputDebugStringA
          (fmt_pid (getpid w)
           ++ c_str (take (1023 - length (fmt_pid (getpid w))) r))].
Proof.
  destruct (mbvs_text w r) as [Hstray Hshown].
  pose proof (mbvs_length w r) as Hlen.
  pose proof (fmt_pid_length (getpid w)) as Hp.
  assert (Htext : c_str (cells (fst (mbvs w r)))
                  = fmt_pid (getpid w)
                    ++ c_str (take (1023 - length (fmt_pid (getpid w))) r)).
  { rewrite mbvs_shows in Hshown. congruence. }
  assert (Hshort : (length (c_str (cells (fst (mbvs w r)))) <= 1023)%nat).
  { rewrite Htext, length_app.
    pose proof (c_str_length (take (1023 - length (fmt_pid (getpid w))) r)).
    rewrite length_take in *. lia. }
  repeat split; try assumption.
  - apply c_str_short_terminated. lia.
  - unfold strlen. lia.
Qed.

Lemma plain_render (junk : nat -> byte) (n : Z) (r : list byte) :
  0 < n -> Forall (fun c => c <> NUL) r ->
  c_str (cells (fst (vsnprintf (alloca junk n) 0 n r)))
  = take (Z.to_nat (n - 1)) r
  /\ stray (fst (vsnprintf (alloca junk n) 0 n r)) = [].
Proof.
  intros Hn Hr.
  rewrite vsnprintf_inside by (rewrite ?alloca_length; lia).
  cbn [cells stray]. rewrite take_0. cbn [app].
  split; [|reflexivity].
  rewrite c_str_stop. apply c_str_id, Forall_take. assumption.
Qed.

(** X8: the plain dialogs and the stderr path show a message exactly as
    rendered up to their capacity: the string in [msg] is the first 1023
    characters of the rendering, the one in the stderr buffer the first
    2047, so a shorter message arrives whole; nothing is stored outside
    either buffer. *)
Theorem rendering_kept_up_to_capacity (w : world) (r : list byte) :
  Forall (fun c => c <> NUL) r ->
  (c_str (cells (fst (mbfatalerror w r))) = take 1023 r
   /\ stray (fst (mbfatalerror w r)) = [])
  /\ (c_str (cells (fst (mbothererror w r))) = take 1023 r
      /\ stray (fst (mbothererror w r)) = [])
  /\ (c_str (cells (utf8_buffer w r)) = take 2047 r
      /\ stray (utf8_buffer w r) = []).
Proof.
  intros Hr.
  rewrite mbfatalerror_msg, mbothererror_msg. unfold utf8_buffer.
  pose proof (plain_render (stack_bytes w) MBTXTLEN r eq_refl Hr) as H1.
  pose proof (plain_render (stack_bytes w) VPRINTF_TO_STDERR_BUFSIZE r
                eq_refl Hr) as H2.
  repeat split; try apply H1; apply H2.
Qed.

Lemma rendering_kept_up_to_capacity_witness :
  Forall (fun c => c <> NUL) (bytes "Cannot open archive file")
  /\ c_str (cells (fst (mbfatalerror sample_world
                          (bytes "Cannot open archive file"))))
     = take 1023 (bytes "Cannot open archive file").
Proof.
  assert (Hr : Forall (fun c => c <> NUL) (bytes "Cannot open archive file"))
    by (apply nul_free_check; reflexivity).
  exact (conj Hr
           (proj1 (proj1 (rendering_kept_up_to_capacity sample_world
                            (bytes "Cannot open archive file") Hr)))).
Defined.

End EmitterLaws.
